(** * prepare-data: from raw microphone recordings to a training corpus

    A shallow embedding of [ml/prepare-data.cc]: the silence calibration,
    the chunk classifier, the channel rotation and differential
    normalisation, the two output sinks, the sample buffer of a mapped file
    and the loop of [main] over the recordings, followed by the properties
    the specification states about them and by further properties of the
    code.  What the system answers ([open], [fstat], [mmap], [wordexp],
    [sscanf], [rand]) is given to the model; the messages printed under
    [VERBOSE] and the formatting of the angle directories are not part of
    it. *)

From Stdlib Require Import ZArith Lia SpecFloat.
From Stdlib Require Import String.
From Stdlib Require Import Strings.Byte.
From stdpp Require Import base numbers list.

Local Open Scope Z_scope.

(** ** Machine integers

    Samples are [int32_t]; they are carried as [Z] and every operation that
    can leave the 32-bit range has its two's-complement wrap-around written
    out.  [long] and [off_t] are 64 bits wide (LP64), so [std::labs] is exact
    on every [int32_t] argument. *)

Definition INT32_MIN : Z := -2147483648.
Definition INT32_MAX : Z := 2147483647.

Definition in_int32 (z : Z) : Prop := INT32_MIN <= z <= INT32_MAX.

Definition int32_wrap (z : Z) : Z := (z + 2147483648) mod 4294967296 - 2147483648.

Definition int32_sub (a b : Z) : Z := int32_wrap (a - b).

Definition labs (z : Z) : Z := Z.abs z.

(** ** Floating point

    [float] and [double] are IEEE-754 binary32 and binary64.  Their
    operations are the ones of the Standard Library's executable
    specification [SpecFloat], at precision 24 / 53. *)

Module Float.

Definition double_of_Z (z : Z) : spec_float := binary_normalize 53 1024 z 0 false.

Definition add : spec_float -> spec_float -> spec_float := SFadd 53 1024.
Definition mul : spec_float -> spec_float -> spec_float := SFmul 53 1024.
Definition div : spec_float -> spec_float -> spec_float := SFdiv 53 1024.

(** The decimal literal [num/den] of type [double]: the nearest binary64
    number, which is what the correctly rounded quotient computes. *)
Definition double_literal (num den : Z) : spec_float :=
  div (double_of_Z num) (double_of_Z den).

(** Conversion [double -> float] (rounds to 24 bits) and the promotion
    [float -> double] (exact, only the representation is renormalised). *)
Definition to_float (x : spec_float) : spec_float :=
  match x with
  | S754_finite s m e => binary_normalize 24 128 (cond_Zopp s (Zpos m)) e s
  | _ => x
  end.

Definition to_double (x : spec_float) : spec_float :=
  match x with
  | S754_finite s m e => binary_normalize 53 1024 (cond_Zopp s (Zpos m)) e s
  | _ => x
  end.

(** Truncation toward zero, as a floating-to-integral conversion does;
    [None] for infinities and NaN. *)
Definition trunc (x : spec_float) : option Z :=
  match x with
  | S754_zero _ => Some 0
  | S754_finite s m e =>
      Some (if 0 <=? e then cond_Zopp s (Zpos m) * 2 ^ e
            else Z.quot (cond_Zopp s (Zpos m)) (2 ^ (- e)))
  | _ => None
  end.

(** [std::floor] followed by a conversion to an integer type. *)
Definition floor (x : spec_float) : option Z :=
  match x with
  | S754_zero _ => Some 0
  | S754_finite s m e =>
      Some (if 0 <=? e then cond_Zopp s (Zpos m) * 2 ^ e
            else Z.div (cond_Zopp s (Zpos m)) (2 ^ (- e)))
  | _ => None
  end.

(** A floating value converted to [int32_t]: the truncated value when it
    is representable; the conversion is undefined otherwise. *)
Definition to_int32 (x : spec_float) : option Z :=
  match trunc x with
  | Some z => if (INT32_MIN <=? z) && (z <=? INT32_MAX) then Some z else None
  | None => None
  end.

End Float.

(** ** Constants of the tool *)

Definition NCHANNELS : nat := 8.
Definition BITS_PER_SAMPLE : nat := 32.
Definition SAMPLES_PER_SECOND : Z := 24000.

Definition INITIAL_SKIP_S : spec_float := Float.to_float (Float.double_literal 5 10).
Definition SILENCE_TRAINING_S : spec_float := Float.to_float (Float.double_literal 10 10).
Definition VALID_SAMPLE_THRESHOLD : spec_float := Float.to_float (Float.double_literal 11 10).
Definition VALID_SAMPLES_PERCENT : spec_float := Float.to_float (Float.double_of_Z 10).

Definition OUT_NSAMPLES : nat := 512.
Definition OUT_DATASET_NWORDS : nat := OUT_NSAMPLES * NCHANNELS.
Definition OUT_DROP_PERCENT : Z := 95.

Arguments NCHANNELS : simpl never.
Arguments OUT_NSAMPLES : simpl never.
Arguments OUT_DATASET_NWORDS : simpl never.

(** ** Loops

    [for (i = lo; i < hi; i += step) body] over an explicit state.  The
    loop runs on fuel; [for_range] supplies [hi - lo] units of it, which a
    positive step never exhausts before the guard fails. *)

Fixpoint for_loop {St : Type} (fuel : nat) (i hi step : nat)
    (body : nat -> St -> St) (s : St) : St :=
  match fuel with
  | O => s
  | S fuel' =>
      if (i <? hi)%nat then for_loop fuel' (i + step)%nat hi step body (body i s)
      else s
  end.

Definition for_range {St : Type} (lo hi step : nat) (body : nat -> St -> St) (s : St) : St :=
  for_loop (hi - lo) lo hi step body s.

(** ** The outside world: the random generator and the output tree

    [std::rand] is an oracle: the sequence of its future results, all
    non-negative, and the number of draws made so far.  The output tree is
    the log of the files written, oldest first.  A file is identified by its
    directory, the recording it comes from and the chunk offset; creating
    the directory and opening the file are taken to succeed.  The directory
    is ["silence"] or one of the paths [angle_dirs[mic_offs]], which has
    three components. *)

#[export] Instance string_inhabited : Inhabited string := populate EmptyString.

Inductive out_dir : Type :=
  | dir_silence
  | dir_angle (path : string).

Record out_file : Type := {
  f_dir : out_dir;
  f_src : string;
  f_chunk_i : Z;
  f_data : list Z
}.

Record world : Type := {
  rand_seq : nat -> N;
  rand_pos : nat;
  disk : list out_file
}.

Definition std_rand (w : world) : Z * world :=
  (Z.of_N (rand_seq w (rand_pos w)),
   {| rand_seq := rand_seq w; rand_pos := S (rand_pos w); disk := disk w |}).

Definition write_file (f : out_file) (w : world) : world :=
  {| rand_seq := rand_seq w; rand_pos := rand_pos w; disk := disk w ++ [f] |}.

(** ** Output sinks *)

(** [base_output::save_to_file] *)
Definition save_to_file (srcpath : string) (path : out_dir) (arr : list Z)
    (chunk_i : Z) (w : world) : world :=
  let '(r, w) := std_rand w in
  let rnd := Z.rem r 100 in
  if rnd <? OUT_DROP_PERCENT then w
  else write_file {| f_dir := path; f_src := srcpath; f_chunk_i := chunk_i;
                     f_data := take OUT_DATASET_NWORDS arr |} w.

(** The abstract class [base_output]: a source path and the virtual
    [save_chunk]. *)
Class base_output (T : Type) : Type := {
  srcpath : T -> string;
  save_chunk : T -> list Z -> Z -> bool -> world -> bool * world
}.

(** [silence_output] *)
Record silence_output : Type := { silence_srcpath : string }.

Definition silence_save_chunk (out : silence_output) (arr : list Z) (chunk_i : Z)
    (is_silence : bool) (w : world) : bool * world :=
  (true, save_to_file (silence_srcpath out) dir_silence arr chunk_i w).

#[export] Instance silence_base_output : base_output silence_output :=
  {| srcpath := silence_srcpath; save_chunk := silence_save_chunk |}.

(** [dataset_output].  The directory [angle_dirs[mic_offs]] is the
    formatted angle, elevation and distance of the rotated recording, as
    the constructor computes them. *)
Record dataset_output : Type := {
  dataset_srcpath : string;
  angle_dirs : list string
}.

(** The first loop nest of [dataset_output::save_chunk]: rotate the
    channels of every frame by [mic_offs]. *)
Definition rotate (mic_offs : nat) (arr data : list Z) : list Z :=
  for_range 0 OUT_DATASET_NWORDS NCHANNELS (fun si data =>
    for_range 0 NCHANNELS 1 (fun chi data =>
      <[(si + (chi + mic_offs) mod NCHANNELS)%nat := arr !!! (si + chi)%nat]> data)
      data)
    data.

(** The second loop nest: subtract channel 0 from the other channels. *)
Definition normalize (data : list Z) : list Z :=
  for_range 0 OUT_DATASET_NWORDS NCHANNELS (fun si data =>
    for_range 1 NCHANNELS 1 (fun chi data =>
      <[(si + chi)%nat := int32_sub (data !!! (si + chi)%nat) (data !!! si)]> data)
      data)
    data.

(** The local array [data] is not initialised; the model starts it from
    zeros, and [rotate_init_irrelevant] shows that its initial contents never
    reach the output. *)
Definition data_uninit : list Z := replicate OUT_DATASET_NWORDS 0.

Definition variant (mic_offs : nat) (arr : list Z) : list Z :=
  normalize (rotate mic_offs arr data_uninit).

Definition dataset_save_chunk (out : dataset_output) (arr : list Z) (chunk_i : Z)
    (is_silence : bool) (w : world) : bool * world :=
  if is_silence then (false, w)
  else
    (true,
     for_range 0 NCHANNELS 1 (fun mic_offs w =>
       save_to_file (dataset_srcpath out) (dir_angle (angle_dirs out !!! mic_offs))
         (variant mic_offs arr) chunk_i w) w).

#[export] Instance dataset_base_output : base_output dataset_output :=
  {| srcpath := dataset_srcpath; save_chunk := dataset_save_chunk |}.

(** ** Calibration and classification *)

(** [off_t] is a signed 64-bit integer. *)
Definition in_off_t (z : Z) : bool :=
  (-9223372036854775808 <=? z) && (z <=? 9223372036854775807).

(** [secs2offs]: the conversion to [off_t] and the product are defined
    while they stay in the range of [off_t]. *)
Definition secs2offs (nsecs : spec_float) : option Z :=
  let nsamples := Float.mul (Float.double_of_Z SAMPLES_PER_SECOND) nsecs in
  match Float.floor nsamples with
  | Some n =>
      if in_off_t n && in_off_t (n * Z.of_nat NCHANNELS)
      then Some (n * Z.of_nat NCHANNELS) else None
  | None => None
  end.

Definition int32_cmp_abs (a b : Z) : bool := labs a <? labs b.

(** [std::max_element]: the first greatest element under [comp]; the
    range must not be empty for the result to be dereferenced. *)
Fixpoint max_element_from (comp : Z -> Z -> bool) (largest : Z) (l : list Z) : Z :=
  match l with
  | [] => largest
  | x :: l' => max_element_from comp (if comp largest x then x else largest) l'
  end.

Definition max_element (comp : Z -> Z -> bool) (l : list Z) : option Z :=
  match l with
  | [] => None
  | x :: l' => Some (max_element_from comp x l')
  end.

(** [std::count_if] *)
Fixpoint count_if (p : Z -> bool) (l : list Z) : Z :=
  match l with
  | [] => 0
  | x :: l' => (if p x then 1 else 0) + count_if p l'
  end.

(** The sample buffer [s32le_buf_t]: [raw] is the list of samples and
    [len] its length. *)
Definition len (raw : list Z) : Z := Z.of_nat (length raw).

(** The samples [raw[lo], ..., raw[hi - 1]]. *)
Definition range (raw : list Z) (lo hi : Z) : list Z :=
  take (Z.to_nat (hi - lo)) (drop (Z.to_nat lo) raw).

Definition chunk_len : Z := Z.of_nat (OUT_NSAMPLES * NCHANNELS).

Definition silence_max (raw : list Z) (silence_scan_i data_scan_i : Z) : option Z :=
  match max_element int32_cmp_abs (range raw silence_scan_i data_scan_i) with
  | Some v => Some (int32_wrap (labs v))
  | None => None
  end.

Definition silence_threshold (silence_max : Z) : option Z :=
  Float.to_int32
    (Float.mul (Float.double_of_Z silence_max) (Float.to_double VALID_SAMPLE_THRESHOLD)).

(** [double(chunk_len) * VALID_SAMPLES_PERCENT / 100.0], converted to
    [int]. *)
Definition nvals_threshold : option Z :=
  Float.to_int32
    (Float.div
       (Float.mul (Float.double_of_Z chunk_len) (Float.to_double VALID_SAMPLES_PERCENT))
       (Float.double_literal 1000 10)).

Definition cmp_to_threshold (silence_threshold : Z) (val : Z) : bool :=
  silence_threshold <=? labs val.

Definition nvals (silence_threshold : Z) (chunk : list Z) : Z :=
  count_if (cmp_to_threshold silence_threshold) chunk.

Definition is_silence (silence_threshold nvals_threshold : Z) (chunk : list Z) : bool :=
  nvals_threshold <=? nvals silence_threshold chunk.

(** The chunk loop of [process_raw_audio_file], on fuel; [None] when the
    fuel runs out before the guard fails. *)
Fixpoint chunk_loop {T : Type} `{base_output T} (fuel : nat) (out : T) (raw : list Z)
    (silence_threshold nvals_threshold : Z) (chunk_i : Z) (num_chunks : Z) (w : world)
    : option (Z * world) :=
  match fuel with
  | O => None
  | S fuel' =>
      if chunk_i <=? len raw - chunk_len then
        let chunk := range raw chunk_i (chunk_i + chunk_len) in
        let '(saved, w) :=
          save_chunk out chunk chunk_i
            (is_silence silence_threshold nvals_threshold chunk) w in
        chunk_loop fuel' out raw silence_threshold nvals_threshold
          (chunk_i + chunk_len) (if saved then num_chunks + 1 else num_chunks) w
      else Some (num_chunks, w)
  end.

(** The result of processing one recording: [fatal] aborted the process in
    the given world, the behaviour is undefined (a conversion out of range,
    or the fuel of the model ran out), or the function returned with
    [num_chunks]. *)
Inductive outcome : Type :=
  | Fatal (msg : string) (w : world)
  | Undefined
  | Done (num_chunks : Z) (w : world).

Definition bind_undef {A : Type} (o : option A) (k : A -> outcome) : outcome :=
  match o with
  | Some a => k a
  | None => Undefined
  end.

Notation "'let?' x ':=' o 'in' k" := (bind_undef o (fun x => k))
  (at level 10, x name, o at level 100, k at level 200).

Definition process_raw_audio_file {T : Type} `{base_output T} (out : T) (raw : list Z)
    (w : world) : outcome :=
  let? silence_scan_i := secs2offs (Float.to_double INITIAL_SKIP_S) in
  let? training := secs2offs (Float.to_double SILENCE_TRAINING_S) in
  let data_scan_i := silence_scan_i + training in
  if (len raw <=? silence_scan_i) || (len raw <=? data_scan_i) then
    Fatal "input file is too short" w
  else
    let? silence_max := silence_max raw silence_scan_i data_scan_i in
    let? silence_threshold := silence_threshold silence_max in
    let? nvals_threshold := nvals_threshold in
    let? r := chunk_loop (S (Z.to_nat (len raw))) out raw silence_threshold nvals_threshold
                data_scan_i 0 w in
    Done (fst r) (snd r).

(** ** The sample buffer of a file: [s32le_buf_t::open]

    A file is the list of its bytes.  The environment decides whether
    [open], [fstat] and [mmap] succeed; the mapped bytes are read as
    consecutive little-endian [int32_t] words, and the bytes after the last
    whole word are left out of [len]. *)

#[export] Instance byte_inhabited : Inhabited byte := populate Byte.x00.

Definition byte_val (b : byte) : Z := Z.of_N (Byte.to_N b).

Definition byte_of_Z (z : Z) : byte :=
  match Byte.of_N (Z.to_N (z mod 256)) with
  | Some b => b
  | None => Byte.x00
  end.

Inductive file_view : Type :=
  | open_fails
  | fstat_fails
  | mmap_fails
  | mapped (bytes : list byte).

(** [raw[i]] of the mapping. *)
Definition raw_word (bytes : list byte) (i : nat) : Z :=
  int32_wrap (byte_val (bytes !!! (4 * i)%nat)
              + 256 * byte_val (bytes !!! (4 * i + 1)%nat)
              + 65536 * byte_val (bytes !!! (4 * i + 2)%nat)
              + 16777216 * byte_val (bytes !!! (4 * i + 3)%nat)).

(** The field [len]: [(st_size - st_size % 4) / 4]. *)
Definition s32le_len (bytes : list byte) : Z :=
  let st_size := Z.of_nat (length bytes) in
  (st_size - st_size mod 4) / 4.

Definition s32le_raw (bytes : list byte) : list Z :=
  raw_word bytes <$> seq 0 (Z.to_nat (s32le_len bytes)).

(** [s32le_buf_t::open]: the message of [fatal], or the buffer. *)
Definition s32le_open (f : file_view) : string + list Z :=
  match f with
  | open_fails => inl "failed to open file"%string
  | fstat_fails => inl "failed to fstat file"%string
  | mmap_fails => inl "failed to mmap file"%string
  | mapped bytes => inr (s32le_raw bytes)
  end.

(** The four bytes of an [int32_t] in memory, and what [s.write] puts in
    an output file: the words of the record, one after the other. *)
Definition word_bytes (z : Z) : list byte :=
  let u := z mod 4294967296 in
  [byte_of_Z u; byte_of_Z (u / 256); byte_of_Z (u / 65536); byte_of_Z (u / 16777216)].

Definition file_bytes (f : out_file) : list byte := concat (word_bytes <$> f_data f).

(** [process_raw_audio_file] from its first line: the recording is the
    file at the sink's source path. *)
Definition process_file {T : Type} `{base_output T} (fs : string -> file_view)
    (out : T) (w : world) : outcome :=
  match s32le_open (fs (srcpath out)) with
  | inl msg => Fatal msg w
  | inr raw => process_raw_audio_file out raw w
  end.

(** ** The constructor of [dataset_output] and [main]

    What the system answers is given by an environment: [wordexp] is the
    status and the words of a pattern, [sscanf] what the format
    ["output-%fdeg-%delev-%fm.raw"] assigns from a file name, [sprintf]
    the text of a [double] under ["%1.<digits>f"], and [fs_view] the files.
    [Continue w] after the last loop is the return of [EXIT_SUCCESS] in the
    world [w]. *)

Record scanned : Type := {
  sc_n : Z;
  sc_subangle : spec_float;
  sc_elev : Z;
  sc_distance : spec_float
}.

Record env : Type := {
  wordexp : string -> Z * list string;
  sscanf : string -> scanned;
  sprintf : nat -> spec_float -> string;
  fs_view : string -> file_view
}.

Inductive progress : Type :=
  | Abort (msg : string) (w : world)
  | Undef
  | Continue (w : world).

Definition progress_of (r : outcome) : progress :=
  match r with
  | Fatal msg w => Abort msg w
  | Undefined => Undef
  | Done _ w => Continue w
  end.

Fixpoint for_each (body : string -> world -> progress) (words : list string)
    (w : world) : progress :=
  match words with
  | [] => Continue w
  | word :: words' =>
      match body word w with
      | Continue w' => for_each body words' w'
      | stop => stop
      end
  end.

(** [float angle = subangle + mic_offs * (360.0 / NCHANNELS)]: the sum is
    computed in [double] and stored in a [float]. *)
Definition rotated_angle (subangle : spec_float) (mic_offs : nat) : spec_float :=
  Float.to_float
    (Float.add (Float.to_double subangle)
       (Float.mul (Float.double_of_Z (Z.of_nat mic_offs))
          (Float.div (Float.double_of_Z 360) (Float.double_of_Z (Z.of_nat NCHANNELS))))).

(** A text fits a [char[16]] when it leaves room for the terminator. *)
Definition fits_char16 (s : string) : bool := (String.length s <? 16)%nat.

(** One iteration of the constructor's loop: the path [a_str / e_str /
    d_str]; [None] when [sprintf] writes past one of the buffers. *)
Definition angle_dir (e : env) (sc : scanned) (mic_offs : nat) : option string :=
  let angle := rotated_angle (sc_subangle sc) mic_offs in
  let elev := Float.to_float (Float.double_of_Z (sc_elev sc)) in
  let a_str := sprintf e 3 (Float.to_double angle) in
  let e_str := sprintf e 1 (Float.to_double elev) in
  let d_str := sprintf e 1 (Float.to_double (sc_distance sc)) in
  if fits_char16 a_str && fits_char16 e_str && fits_char16 d_str
  then Some (String.append a_str
               (String.append "/" (String.append e_str (String.append "/" d_str))))
  else None.

(** What the constructor of [dataset_output] ends in. *)
Inductive constructed : Type :=
  | ctor_fatal (msg : string)
  | ctor_undefined
  | ctor_ok (out : dataset_output).

(** The constructor of [dataset_output]: [fatal] unless [sscanf] assigns
    the three fields, then the eight directories. *)
Definition new_dataset_output (e : env) (path : string) : constructed :=
  let sc := sscanf e path in
  if sc_n sc =? 3 then
    match mapM (angle_dir e sc) (seq 0 NCHANNELS) with
    | Some dirs => ctor_ok {| dataset_srcpath := path; angle_dirs := dirs |}
    | None => ctor_undefined
    end
  else ctor_fatal "has invalid filename".

Definition silence_body (e : env) (word : string) (w : world) : progress :=
  progress_of (process_file (fs_view e) {| silence_srcpath := word |} w).

Definition dataset_body (e : env) (word : string) (w : world) : progress :=
  match new_dataset_output e word with
  | ctor_fatal msg => Abort msg w
  | ctor_undefined => Undef
  | ctor_ok out => progress_of (process_file (fs_view e) out w)
  end.

(** [main].  [wordexp] returns 0 or one of its positive error codes; after
    an error the guard [st < 0] lets the run go on to read a [wordexp_t]
    that was not filled in. *)
Definition main (e : env) (argv : list string) (w : world) : progress :=
  match argv with
  | [_; dir; output_directory] =>
      let fpattern := String.append dir "/output-*deg-*elev-*m.raw" in
      let fpattern_silence := String.append dir "/output-silence*.raw" in
      let '(st, words) := wordexp e fpattern_silence in
      if st <? 0 then Abort "wordexp error" w
      else if 0 <? st then Undef
      else
        match for_each (silence_body e) words w with
        | Continue w =>
            let '(st, words) := wordexp e fpattern in
            if st <? 0 then Abort "wordexp error" w
            else if 0 <? st then Undef
            else for_each (dataset_body e) words w
        | stop => stop
        end
  | _ => Abort "Usage: create-hdf5-data <RAW_AUDIO_DIRECTORY> <OUTPUT_HDF5>" w
  end.

(** * Vocabulary of the properties

    Definitions used to state and prove the properties: the loop shapes of
    the transform, the effect of the sinks on the world, the chunk offsets,
    the claims of the specification that fail, and sample recordings. *)

(** A loop that stores one element per iteration, each at an index of its
    own, where the stored value may read the array. *)
Definition stores (idx : nat -> nat) (val : nat -> list Z -> Z) (n : nat) (d : list Z)
    : list Z :=
  foldl (fun d k => <[idx k := val k d]> d) d (seq 0 n).

(** A loop over consecutive frames of [c] words whose body only touches
    the frame it is given. *)
Definition frames (c : nat) (inner : nat -> list Z -> list Z) (n : nat) (d : list Z)
    : list Z :=
  foldl (fun d k => inner (k * c)%nat d) d (seq 0 n).

Definition rotate_frame (mic_offs : nat) (arr : list Z) (si : nat) : list Z -> list Z :=
  stores (fun chi => (si + (chi + mic_offs) mod NCHANNELS)%nat)
         (fun chi _ => arr !!! (si + chi)%nat) NCHANNELS.

Definition normalize_frame (si : nat) : list Z -> list Z :=
  stores (fun k => (si + (1 + k))%nat)
         (fun k d => int32_sub (d !!! (si + (1 + k))%nat) (d !!! si))
         (NCHANNELS - 1).

(** The channel that the sample of channel [c] moves to under the
    rotation [r]. *)
Definition rot_index (r c : nat) : nat := ((c + r) mod NCHANNELS)%nat.

(** The channel that the sample at channel [c] comes from. *)
Definition rot_source (r c : nat) : nat := rot_index (NCHANNELS - r) c.



(** A ramp, used to exercise the transform on concrete data. *)
Definition ramp_chunk : list Z :=
  (fun i => 7 * Z.of_nat i - 10000) <$> seq 0 OUT_DATASET_NWORDS.

(** A tone of amplitude 1000 in channel 0 only, and what its variant for
    the rotation offset 0 has to be. *)
Definition tone_chunk : list Z :=
  concat (replicate OUT_NSAMPLES [1000; 0; 0; 0; 0; 0; 0; 0]).

Definition tone_variant : list Z :=
  concat (replicate OUT_NSAMPLES [1000; -1000; -1000; -1000; -1000; -1000; -1000; -1000]).

(** The [k]-th next draw [std::rand() % 100] in the world [w]. *)
Definition draw (w : world) (k : nat) : Z :=
  Z.rem (Z.of_N (rand_seq w (rand_pos w + k))) 100.

Definition advance (n : nat) (fs : list out_file) (w : world) : world :=
  {| rand_seq := rand_seq w; rand_pos := (rand_pos w + n)%nat; disk := disk w ++ fs |}.

(** What one call of [save_to_file] leaves on disk when it makes the
    [k]-th next draw. *)
Definition attempt (w : world) (k : nat) (f : out_file) : option out_file :=
  if draw w k <? OUT_DROP_PERCENT then None else Some f.

Definition variant_file (out : dataset_output) (arr : list Z) (chunk_i : Z)
    (mic_offs : nat) : out_file :=
  {| f_dir := dir_angle (angle_dirs out !!! mic_offs); f_src := dataset_srcpath out;
     f_chunk_i := chunk_i; f_data := variant mic_offs arr |}.





(** The claim C2 in full: [save_chunk] returns true exactly when the
    submission put at least one record on disk. *)
Definition submit_true_iff_written {T : Type} `{base_output T} (out : T)
    (arr : list Z) (chunk_i : Z) (label : bool) (w : world) : Prop :=
  fst (save_chunk out arr chunk_i label w) = true
  <-> disk (snd (save_chunk out arr chunk_i label w)) <> disk w.

(** The sink of the recording [output-05.625deg-0elev-1.0m.raw], with the
    directories of its eight rotations. *)
Definition sample_dataset : dataset_output :=
  {| dataset_srcpath := "output-05.625deg-0elev-1.0m.raw";
     angle_dirs := ["5.625/0.0/1.0"; "50.625/0.0/1.0"; "95.625/0.0/1.0";
                    "140.625/0.0/1.0"; "185.625/0.0/1.0"; "230.625/0.0/1.0";
                    "275.625/0.0/1.0"; "320.625/0.0/1.0"]%string |}.

(** A world in which every draw is 0, and one in which every draw is 99. *)
Definition world_drop_all : world := {| rand_seq := fun _ => 0%N; rand_pos := 0; disk := [] |}.

Definition world_keep_all : world := {| rand_seq := fun _ => 99%N; rand_pos := 0; disk := [] |}.

(** The two offsets [process_raw_audio_file] computes with [secs2offs]. *)
Definition silence_scan_i : Z := 96000.

Definition data_scan_i : Z := 288000.

(** The body of the chunk loop: classify the chunk at [chunk_i] and hand
    it to the sink; the accumulator is [num_chunks] and the world. *)
Definition submit {T : Type} `{base_output T} (out : T) (raw : list Z)
    (silence_threshold nvals_threshold : Z) (acc : Z * world) (chunk_i : Z) : Z * world :=
  let chunk := range raw chunk_i (chunk_i + chunk_len) in
  let r := save_chunk out chunk chunk_i
             (is_silence silence_threshold nvals_threshold chunk) (snd acc) in
  (if fst r then fst acc + 1 else fst acc, snd r).

(** [n] chunk offsets from [start] on, [chunk_len] apart. *)
Definition offsets_from (start : Z) (n : nat) : list Z :=
  (fun k => start + Z.of_nat k * chunk_len) <$> seq 0 n.

(** The number of whole chunks after the calibration window. *)
Definition n_chunks (raw : list Z) : nat :=
  Z.to_nat ((len raw - data_scan_i) / chunk_len).

(** An integer below 2^54 rounded to 53 significant bits, to nearest and
    ties to even: what a [double] holds of it. *)
Definition round53 (x : Z) : Z :=
  if x <? 2 ^ 53 then x
  else 2 * (if Z.even x then x / 2
            else if Z.even (x / 2) then x / 2 else x / 2 + 1).

(** The greatest absolute value in a list (0 for the empty list). *)
Definition peak_abs (l : list Z) : Z := foldr (fun v acc => Z.max (Z.abs v) acc) 0 l.

(** Lines 307-309 of [process_raw_audio_file]: the silence threshold of a
    recording. *)
Definition calibrate (raw : list Z) : option Z :=
  match silence_max raw silence_scan_i data_scan_i with
  | Some m => silence_threshold m
  | None => None
  end.

(** Silence except for one sample [p] in the calibration window; one
    sample longer than the window. *)
Definition recording_peak (p : Z) : list Z :=
  replicate (Z.to_nat 96000) 0 ++ [p] ++ replicate (Z.to_nat 192000) 0.

(** A chunk with exactly 409 samples of absolute value 1. *)
Definition chunk_409 : list Z := replicate 409 1 ++ replicate 3687 0.

(** A calibration window with peak 1, followed by [chunk_409]. *)
Definition recording_409 : list Z :=
  replicate (Z.to_nat 96000) 0 ++ [1] ++ replicate (Z.to_nat 191999) 0 ++ chunk_409.

(** An all-zero calibration window followed by 5000 loud samples: one
    whole chunk and a remainder of 904 samples. *)
Definition recording_quiet : list Z :=
  replicate (Z.to_nat 288000) 0 ++ replicate 5000 7.

(** A recording that is exactly as long as the skip and the calibration
    window together. *)
Definition recording_short : list Z := replicate (Z.to_nat 288000) 0.

Definition ceil_div (a b : Z) : Z := (a + b - 1) / b.

(** The claim C1 in full: a chunk is Silence exactly when the count of its
    samples at or above the threshold reaches ceil(F * 10 / 100). *)
Definition classified_by_ceiling (silence_threshold nvals_threshold : Z)
    (chunk : list Z) : Prop :=
  is_silence silence_threshold nvals_threshold chunk = true
  <-> ceil_div (Z.of_nat (length chunk) * 10) 100 <= nvals silence_threshold chunk.

(** The claim C5 on the threshold: it is the peak of the calibration
    window times 1.1. *)
Definition threshold_is_scaled_peak (raw : list Z) : Prop :=
  exists thr, calibrate raw = Some thr
              /\ 10 * thr = 11 * peak_abs (range raw silence_scan_i data_scan_i).

(** The claim C6 in full: when the peak of the second window is twice the
    peak of the first, so is the threshold. *)
Definition doubling_doubles (rawA rawB : list Z) : Prop :=
  peak_abs (range rawB silence_scan_i data_scan_i)
    = 2 * peak_abs (range rawA silence_scan_i data_scan_i) ->
  exists tA tB, calibrate rawA = Some tA /\ calibrate rawB = Some tB /\ tB = 2 * tA.

(** ** Vocabulary of the runs

    What one run of [process_raw_audio_file] leaves behind with each sink,
    and what identifies a record in the output tree. *)

(** The chunk that starts at [off]. *)
Definition chunk_at (raw : list Z) (off : Z) : list Z := range raw off (off + chunk_len).

(** The record of the Silence sink for the chunk at [off]. *)
Definition silence_file (out : silence_output) (raw : list Z) (off : Z) : out_file :=
  {| f_dir := dir_silence; f_src := silence_srcpath out; f_chunk_i := off;
     f_data := chunk_at raw off |}.

(** The offsets of the chunks that are not Silence under [thr], in order. *)
Definition signal_offsets (raw : list Z) (thr : Z) : list Z :=
  filter (fun off => is_silence thr 409 (chunk_at raw off) = false)
         (offsets_from data_scan_i (n_chunks raw)).

(** The records of the Directional sink for the [j]-th chunk it records,
    which starts at [off]: draw number [NCHANNELS * j + r] decides on the
    variant [r]. *)
Definition variant_block (out : dataset_output) (raw : list Z) (w : world)
    (j : nat) (off : Z) : list out_file :=
  omap (fun r => attempt w (NCHANNELS * j + r)
                   (variant_file out (chunk_at raw off) off r))
       (seq 0 NCHANNELS).

(** The path of an output file below [outbase]: the directory, and the
    file name made of the name of the recording and the chunk offset. *)
Definition file_path (f : out_file) : out_dir * string * Z :=
  (f_dir f, f_src f, f_chunk_i f).

(** The sub-angle 1e9 as a [float], as [sscanf] reads it from the name
    [output-1e9deg-0elev-1.0m.raw]. *)
Definition float_1e9 : spec_float := Float.to_float (Float.double_of_Z 1000000000).

(** The records of a run with the Silence sink that starts in [w]. *)
Definition silence_records (out : silence_output) (raw : list Z) (w : world)
    : list out_file :=
  omap (fun k => attempt w k (silence_file out raw (data_scan_i + Z.of_nat k * chunk_len)))
       (seq 0 (n_chunks raw)).

(** The records of a run with the Directional sink that starts in [w]. *)
Definition variant_records (out : dataset_output) (raw : list Z) (thr : Z) (w : world)
    : list out_file :=
  mjoin (imap (variant_block out raw w) (signal_offsets raw thr)).

(** A record of [OUT_DATASET_NWORDS] 32-bit samples; 16384 bytes on disk. *)
Definition whole_record (f : out_file) : Prop :=
  length (f_data f) = OUT_DATASET_NWORDS
  /\ Forall in_int32 (f_data f)
  /\ Z.of_nat (length (file_bytes f)) = 16384.

(** A calibration window with peak 1000, followed by one chunk of zeros. *)
Definition recording_signal : list Z := recording_peak 1000 ++ replicate 4095 0.

(** ** Vocabulary of [main]

    The recordings [main] cannot process, the message it aborts with, and a
    directory of sample recordings with what the system answers for it. *)

(** A file that cannot be opened, examined or mapped, or that has at most
    [data_scan_i] whole samples. *)
Definition unusable (f : file_view) : Prop :=
  match f with
  | mapped bytes => Z.of_nat (length bytes) < 1152004
  | _ => True
  end.

Definition failure_message (f : file_view) : string :=
  match f with
  | open_fails => "failed to open file"
  | fstat_fails => "failed to fstat file"
  | mmap_fails => "failed to mmap file"
  | mapped _ => "input file is too short"
  end.

(** The bytes of a file that holds [recording_quiet]. *)
Definition recording_quiet_bytes : list byte := concat (word_bytes <$> recording_quiet).

(** What [sscanf] assigns from the names of the sample recordings; a name
    that does not start with a number after [output-] assigns nothing and
    leaves the fields as they were initialised. *)
Definition sample_sscanf (name : string) : scanned :=
  if String.eqb name "rec/output-05.625deg-0elev-1.0m.raw" then
    {| sc_n := 3; sc_subangle := Float.to_float (Float.double_literal 5625 1000);
       sc_elev := 0; sc_distance := Float.to_float (Float.double_of_Z 1) |}
  else if String.eqb name "rec/output-1e9deg-0elev-1.0m.raw" then
    {| sc_n := 3; sc_subangle := float_1e9;
       sc_elev := 0; sc_distance := Float.to_float (Float.double_of_Z 1) |}
  else
    {| sc_n := 0; sc_subangle := Float.to_float (Float.double_of_Z (-1));
       sc_elev := 0; sc_distance := Float.to_float (Float.double_of_Z (-1)) |}.

(** What [sprintf] prints for the angles, the elevation and the distance of
    the sample recordings, by the value in thousandths. *)
Definition sample_sprintf (digits : nat) (x : spec_float) : string :=
  match digits, Float.floor (Float.mul x (Float.double_of_Z 1000)) with
  | 1%nat, Some 0 => "0.0"
  | 1%nat, Some 1000 => "1.0"
  | 3%nat, Some 5625 => "5.625"
  | 3%nat, Some 50625 => "50.625"
  | 3%nat, Some 95625 => "95.625"
  | 3%nat, Some 140625 => "140.625"
  | 3%nat, Some 185625 => "185.625"
  | 3%nat, Some 230625 => "230.625"
  | 3%nat, Some 275625 => "275.625"
  | 3%nat, Some 320625 => "320.625"
  | 3%nat, Some 1000000000000 => "1000000000.000"
  | 3%nat, Some 1000000064000 => "1000000064.000"
  | 3%nat, Some 1000000128000 => "1000000128.000"
  | 3%nat, Some 1000000192000 => "1000000192.000"
  | 3%nat, Some 1000000256000 => "1000000256.000"
  | 3%nat, Some 1000000320000 => "1000000320.000"
  | _, _ => "-1.0"
  end.

(** The sink that the constructor builds for the recording
    [rec/output-1e9deg-0elev-1.0m.raw]. *)
Definition sample_dataset_1e9 : dataset_output :=
  {| dataset_srcpath := "rec/output-1e9deg-0elev-1.0m.raw";
     angle_dirs := ["1000000000.000/0.0/1.0"; "1000000064.000/0.0/1.0";
                    "1000000064.000/0.0/1.0"; "1000000128.000/0.0/1.0";
                    "1000000192.000/0.0/1.0"; "1000000256.000/0.0/1.0";
                    "1000000256.000/0.0/1.0"; "1000000320.000/0.0/1.0"]%string |}.

(** A directory [rec] with the given silence and directional recordings,
    each holding [recording_quiet], except for one that cannot be opened. *)
Definition sample_env (silence dataset : list string) (unreadable : string) : env :=
  {| wordexp := fun pattern =>
       if String.eqb pattern "rec/output-silence*.raw" then (0, silence)
       else (0, dataset);
     sscanf := sample_sscanf;
     sprintf := sample_sprintf;
     fs_view := fun name =>
       if String.eqb name unreadable then open_fails
       else mapped recording_quiet_bytes |}.

(** * Properties *)

(** The proofs only use that a frame is not empty and that a chunk is
    [OUT_NSAMPLES] frames long. *)

Lemma NCHANNELS_pos : (0 < NCHANNELS)%nat.
Proof. unfold NCHANNELS. lia. Qed.

Lemma OUT_DATASET_NWORDS_eq : OUT_DATASET_NWORDS = (OUT_NSAMPLES * NCHANNELS)%nat.
Proof. reflexivity. Qed.

Lemma chunk_len_eq : chunk_len = 4096.
Proof. reflexivity. Qed.

Lemma chunk_len_words : chunk_len = Z.of_nat OUT_DATASET_NWORDS.
Proof. reflexivity. Qed.

#[local] Opaque NCHANNELS OUT_NSAMPLES OUT_DATASET_NWORDS chunk_len.

(** ** Loops as folds *)

Section Loops.
Context {St : Type}.
Implicit Types (body : nat -> St -> St) (s : St).

Lemma for_loop_done fuel i hi step body s :
  (hi <= i)%nat -> for_loop fuel i hi step body s = s.
Proof.
  intros Hle. destruct fuel as [|fuel]; [done|]. simpl.
  destruct (Nat.ltb_spec i hi); [lia|done].
Qed.

Lemma for_loop_fold step body :
  (0 < step)%nat ->
  forall n fuel i hi s,
    (n <= fuel)%nat ->
    (i + n * step < hi + step)%nat ->
    (hi <= i + n * step)%nat ->
    for_loop fuel i hi step body s
    = foldl (fun s k => body (i + k * step)%nat s) s (seq 0 n).
Proof.
  intros Hstep. induction n as [|n IH]; intros fuel i hi s Hfuel Hlt Hge.
  - simpl. apply for_loop_done. lia.
  - destruct fuel as [|fuel]; [lia|]. cbn [for_loop].
    destruct (Nat.ltb_spec i hi) as [Hi|Hi]; [|nia].
    rewrite (IH fuel (i + step)%nat hi (body i s)) by lia.
    cbn [seq foldl]. rewrite Nat.add_0_r, <- fmap_S_seq.
    change (0 * step)%nat with 0%nat.
    generalize (body i s) as s'. generalize (seq 0 n) as l.
    induction l as [|k l IHl]; intros s'; [done|].
    cbn [fmap list_fmap foldl].
    replace (i + step + k * step)%nat with (i + S k * step)%nat by lia.
    apply IHl.
Qed.

(** The fuel of [for_range] is enough: more of it changes nothing. *)
Lemma for_loop_fuel step body :
  (0 < step)%nat ->
  forall fuel fuel' i hi s,
    (hi - i <= fuel)%nat -> (hi - i <= fuel')%nat ->
    for_loop fuel i hi step body s = for_loop fuel' i hi step body s.
Proof.
  intros Hstep. induction fuel as [|fuel IH]; intros fuel' i hi s Hfuel Hfuel'.
  - rewrite (for_loop_done fuel') by lia. apply for_loop_done. lia.
  - destruct fuel' as [|fuel']; [rewrite (for_loop_done (S fuel)) by lia; done|].
    cbn [for_loop]. destruct (Nat.ltb_spec i hi); [|done].
    apply IH; lia.
Qed.

(** A unit-step loop visits [lo, lo + 1, ..., hi - 1]. *)
Lemma for_range_unit lo hi body s :
  for_range lo hi 1 body s = foldl (fun s k => body (lo + k)%nat s) s (seq 0 (hi - lo)).
Proof.
  unfold for_range. destruct (Nat.le_gt_cases hi lo) as [Hle|Hlt].
  { rewrite for_loop_done by done. by replace (hi - lo)%nat with 0%nat by lia. }
  rewrite (for_loop_fold 1 body) with (n := (hi - lo)%nat) by lia.
  induction (seq 0 (hi - lo)) as [|k l IHl] in s |- *; [done|].
  cbn [foldl]. rewrite Nat.mul_1_r. apply IHl.
Qed.

(** A loop over [n] frames of [c] words visits [0, c, ..., (n - 1) * c]. *)
Lemma for_range_frames n c body s :
  (0 < c)%nat ->
  for_range 0 (n * c) c body s = foldl (fun s k => body (k * c)%nat s) s (seq 0 n).
Proof.
  intros Hc. unfold for_range.
  rewrite (for_loop_fold c body Hc n) by nia.
  done.
Qed.
End Loops.

(** ** In-place array loops *)

Section Stores.
Variable idx : nat -> nat.
Variable val : nat -> list Z -> Z.
Variable m : nat.

Abbreviation stores := (stores idx val).

Lemma stores_S n d : stores (S n) d = <[idx n := val n (stores n d)]> (stores n d).
Proof. unfold stores. by rewrite seq_S, foldl_app. Qed.

Lemma stores_length n d : length (stores n d) = length d.
Proof.
  induction n as [|n IH]; [done|]. by rewrite stores_S, length_insert.
Qed.

Lemma stores_other n d j :
  (forall k, (k < n)%nat -> idx k <> j) -> stores n d !! j = d !! j.
Proof.
  induction n as [|n IH]; intros Hj; [done|].
  rewrite stores_S, list_lookup_insert_ne by (apply Hj; lia).
  apply IH. intros k Hk. apply Hj. lia.
Qed.

Hypothesis idx_inj : forall a b, (a < m)%nat -> (b < m)%nat -> idx a = idx b -> a = b.
Hypothesis val_local : forall k d d',
  (k < m)%nat ->
  (forall j, (forall k', (k' < m)%nat -> k' <> k -> idx k' <> j) -> d !! j = d' !! j) ->
  val k d = val k d'.

Lemma stores_lookup n d c :
  (n <= m)%nat -> (c < n)%nat -> (idx c < length d)%nat ->
  stores n d !! idx c = Some (val c d).
Proof.
  induction n as [|n IH]; intros Hn Hc Hlen; [lia|].
  rewrite stores_S. destruct (decide (c = n)) as [->|Hne].
  - rewrite list_lookup_insert_eq by (by rewrite stores_length).
    f_equal. apply val_local; [lia|]. intros j Hj.
    apply stores_other. intros k Hk. apply Hj; lia.
  - rewrite list_lookup_insert_ne.
    + apply IH; lia.
    + intros Heq. apply Hne. symmetry. apply idx_inj; [lia..|done].
Qed.
End Stores.

Section Frames.
Variable c : nat.
Variable inner : nat -> list Z -> list Z.
Hypothesis inner_length : forall si d, length (inner si d) = length d.
Hypothesis inner_frame : forall si d j,
  (j < si \/ si + c <= j)%nat -> inner si d !! j = d !! j.

Abbreviation frames := (frames c inner).

Lemma frames_S n d : frames (S n) d = inner (n * c)%nat (frames n d).
Proof. unfold frames. by rewrite seq_S, foldl_app. Qed.

Lemma frames_length n d : length (frames n d) = length d.
Proof.
  induction n as [|n IH]; [done|]. by rewrite frames_S, inner_length.
Qed.

(** The first [n] iterations leave the frames from [n] on as they were. *)
Lemma frames_later n d j : (n * c <= j)%nat -> frames n d !! j = d !! j.
Proof.
  induction n as [|n IH]; intros Hj; [done|].
  rewrite frames_S, inner_frame by lia. apply IH. lia.
Qed.

(** Frame [k] is final once iteration [k] has run. *)
Lemma frames_earlier n k d j :
  (k < n)%nat -> (j < S k * c)%nat -> frames n d !! j = frames (S k) d !! j.
Proof.
  induction n as [|n IH]; intros Hk Hj; [lia|].
  destruct (decide (k = n)) as [->|Hne]; [done|].
  rewrite frames_S, inner_frame by nia. apply IH; [lia|done].
Qed.

(** The words of frame [k] after the loop are those the body computes for
    frame [k] from an array that agrees with the initial one from frame
    [k] on. *)
Lemma frames_lookup n k d j :
  (k < n)%nat -> (j < S k * c)%nat ->
  exists d', frames n d !! j = inner (k * c)%nat d' !! j
             /\ length d' = length d
             /\ forall i, (k * c <= i)%nat -> d' !! i = d !! i.
Proof.
  intros Hk Hj. exists (frames k d). split; [|split].
  - by rewrite (frames_earlier n k), frames_S.
  - apply frames_length.
  - intros i Hi. by apply frames_later.
Qed.
End Frames.

(** ** Channel rotation and differential normalisation *)

Lemma foldl_ext {A B : Type} (f g : A -> B -> A) (a : A) (l : list B) :
  (forall a b, f a b = g a b) -> foldl f a l = foldl g a l.
Proof.
  intros Hfg. induction l as [|b l IH] in a |- *; [done|].
  cbn [foldl]. rewrite Hfg. apply IH.
Qed.

Lemma mod_small_unique (x c q y : nat) :
  x = (c * q + y)%nat -> (y < c)%nat -> (x mod c = y)%nat.
Proof. intros Hx Hy. symmetry. by apply (Nat.mod_unique x c q y). Qed.

Lemma mod_add_inj (a b r c : nat) :
  (a < c)%nat -> (b < c)%nat -> ((a + r) mod c = (b + r) mod c)%nat -> a = b.
Proof.
  intros Ha Hb Heq.
  pose proof (Nat.div_mod_eq (a + r) c) as Hqa.
  pose proof (Nat.div_mod_eq (b + r) c) as Hqb.
  pose proof (Nat.mod_upper_bound (a + r) c ltac:(lia)) as Hua.
  rewrite Heq in Hqa.
  set (qa := ((a + r) / c)%nat) in *. set (qb := ((b + r) / c)%nat) in *.
  set (y := ((b + r) mod c)%nat) in *.
  assert (qa = qb) by nia. nia.
Qed.

Lemma rotate_frames mic_offs arr d :
  rotate mic_offs arr d = frames NCHANNELS (rotate_frame mic_offs arr) OUT_NSAMPLES d.
Proof.
  unfold rotate, frames. rewrite OUT_DATASET_NWORDS_eq.
  rewrite for_range_frames by apply NCHANNELS_pos.
  apply foldl_ext. intros a k. rewrite for_range_unit, Nat.sub_0_r. done.
Qed.

Lemma normalize_frames d :
  normalize d = frames NCHANNELS normalize_frame OUT_NSAMPLES d.
Proof.
  unfold normalize, frames. rewrite OUT_DATASET_NWORDS_eq.
  rewrite for_range_frames by apply NCHANNELS_pos.
  apply foldl_ext. intros a k. rewrite for_range_unit. done.
Qed.

Lemma rotate_frame_length mic_offs arr si d :
  length (rotate_frame mic_offs arr si d) = length d.
Proof. apply stores_length. Qed.

Lemma rotate_frame_outside mic_offs arr si d j :
  (j < si \/ si + NCHANNELS <= j)%nat -> rotate_frame mic_offs arr si d !! j = d !! j.
Proof.
  intros Hj. apply stores_other. intros k _.
  pose proof (Nat.mod_upper_bound (k + mic_offs) NCHANNELS ltac:(pose proof NCHANNELS_pos; lia)).
  lia.
Qed.

Lemma normalize_frame_length si d : length (normalize_frame si d) = length d.
Proof. apply stores_length. Qed.

Lemma normalize_frame_outside si d j :
  (j <= si \/ si + NCHANNELS <= j)%nat -> normalize_frame si d !! j = d !! j.
Proof. intros Hj. apply stores_other. intros k Hk. lia. Qed.

Lemma rotate_length mic_offs arr d : length (rotate mic_offs arr d) = length d.
Proof. rewrite rotate_frames. apply frames_length, rotate_frame_length. Qed.

Lemma normalize_length d : length (normalize d) = length d.
Proof. rewrite normalize_frames. apply frames_length, normalize_frame_length. Qed.

#[local] Opaque rotate normalize.

(** After the rotation, channel [(c + mic_offs) mod NCHANNELS] of every
    frame holds what channel [c] of the input frame held. *)
Lemma rotate_lookup mic_offs arr d k c :
  length d = OUT_DATASET_NWORDS ->
  (k < OUT_NSAMPLES)%nat -> (c < NCHANNELS)%nat ->
  rotate mic_offs arr d !! (k * NCHANNELS + (c + mic_offs) mod NCHANNELS)%nat
  = Some (arr !!! (k * NCHANNELS + c)%nat).
Proof.
  intros Hlen Hk Hc. pose proof NCHANNELS_pos as Hpos.
  pose proof (Nat.mod_upper_bound (c + mic_offs) NCHANNELS ltac:(lia)) as Hub.
  rewrite rotate_frames.
  destruct (frames_lookup NCHANNELS (rotate_frame mic_offs arr)
              (rotate_frame_length mic_offs arr) (rotate_frame_outside mic_offs arr)
              OUT_NSAMPLES k d
              (k * NCHANNELS + (c + mic_offs) mod NCHANNELS)%nat)
    as (d' & -> & Hlen' & _); [done|lia|].
  unfold rotate_frame.
  apply (stores_lookup
           (fun chi => (k * NCHANNELS + (chi + mic_offs) mod NCHANNELS)%nat)
           (fun chi _ => arr !!! (k * NCHANNELS + chi)%nat) NCHANNELS); try done.
  - intros a b Ha Hb Hab. apply (mod_add_inj a b mic_offs NCHANNELS); [done..|lia].
  - rewrite Hlen', Hlen, OUT_DATASET_NWORDS_eq. nia.
Qed.

(** After the normalisation, channel 0 of every frame is unchanged and
    every other channel holds its 32-bit difference from channel 0. *)
Lemma normalize_lookup d k c :
  length d = OUT_DATASET_NWORDS ->
  (k < OUT_NSAMPLES)%nat -> (c < NCHANNELS)%nat ->
  normalize d !! (k * NCHANNELS + c)%nat
  = Some (if decide (c = 0%nat) then d !!! (k * NCHANNELS)%nat
          else int32_sub (d !!! (k * NCHANNELS + c)%nat) (d !!! (k * NCHANNELS)%nat)).
Proof.
  intros Hlen Hk Hc. pose proof NCHANNELS_pos as Hpos.
  assert (k * NCHANNELS + NCHANNELS <= length d)%nat as Hin
    by (rewrite Hlen, OUT_DATASET_NWORDS_eq; nia).
  rewrite normalize_frames.
  destruct (frames_lookup NCHANNELS normalize_frame normalize_frame_length
              (fun si d j H => normalize_frame_outside si d j ltac:(lia))
              OUT_NSAMPLES k d (k * NCHANNELS + c)%nat)
    as (d' & -> & Hlen' & Hd'); [done|lia|].
  assert (forall i, (k * NCHANNELS <= i)%nat -> d' !!! i = d !!! i) as Hd'T.
  { intros i Hi. by rewrite !list_lookup_total_alt, Hd'. }
  destruct (decide (c = 0%nat)) as [->|Hne].
  - rewrite Nat.add_0_r, normalize_frame_outside, Hd' by lia.
    apply list_lookup_lookup_total_lt. lia.
  - destruct c as [|c0]; [done|]. unfold normalize_frame.
    rewrite <- !Hd'T by lia.
    apply (stores_lookup (fun k0 => (k * NCHANNELS + (1 + k0))%nat)
             (fun k0 d => int32_sub (d !!! (k * NCHANNELS + (1 + k0))%nat)
                                    (d !!! (k * NCHANNELS)%nat))
             (NCHANNELS - 1)); try lia.
    intros k0 d1 d2 Hk0 Hagree. cbn beta.
      rewrite !list_lookup_total_alt, !Hagree; [done|intros; lia..].
Qed.

Lemma int32_wrap_id (z : Z) : in_int32 z -> int32_wrap z = z.
Proof.
  unfold in_int32, INT32_MIN, INT32_MAX, int32_wrap. intros Hz.
  rewrite Z.mod_small by lia. lia.
Qed.

Lemma rot_index_lt r c : (rot_index r c < NCHANNELS)%nat.
Proof. apply Nat.mod_upper_bound. pose proof NCHANNELS_pos. lia. Qed.

Lemma rot_index_cancel r s c :
  (c < NCHANNELS)%nat -> (r + s = NCHANNELS)%nat -> rot_index s (rot_index r c) = c.
Proof.
  intros Hc Hrs. unfold rot_index.
  destruct (Nat.lt_ge_cases (c + r) NCHANNELS) as [Hlt|Hge].
  - rewrite (Nat.mod_small (c + r)) by done.
    apply (mod_small_unique _ _ 1); lia.
  - rewrite (mod_small_unique (c + r) NCHANNELS 1 (c + r - NCHANNELS)) by lia.
    replace (c + r - NCHANNELS + s)%nat with c by lia.
    by apply Nat.mod_small.
Qed.

(** The rotation overwrites every word of [data]: the result does not
    depend on what the array held before. *)
Lemma rotate_init_irrelevant (mic_offs : nat) (arr d d' : list Z) :
  (mic_offs < NCHANNELS)%nat ->
  length d = OUT_DATASET_NWORDS -> length d' = OUT_DATASET_NWORDS ->
  rotate mic_offs arr d = rotate mic_offs arr d'.
Proof.
  intros Hr Hd Hd'. pose proof NCHANNELS_pos as Hpos.
  apply list_eq. intros j.
  destruct (Nat.lt_ge_cases j OUT_DATASET_NWORDS) as [Hj|Hj].
  - set (k := (j / NCHANNELS)%nat). set (c' := (j mod NCHANNELS)%nat).
    assert (j = (k * NCHANNELS + c')%nat) as Hjk
      by (unfold k, c'; pose proof (Nat.div_mod_eq j NCHANNELS); lia).
    assert (c' < NCHANNELS)%nat as Hc' by (apply Nat.mod_upper_bound; lia).
    assert (k < OUT_NSAMPLES)%nat as Hk.
    { rewrite OUT_DATASET_NWORDS_eq in Hj. nia. }
    rewrite Hjk.
    rewrite <- (rot_index_cancel (NCHANNELS - mic_offs) mic_offs c' Hc' ltac:(lia)).
    unfold rot_index at 1 3.
    rewrite !rotate_lookup by (assumption || apply rot_index_lt). reflexivity.
  - transitivity (@None Z); [|symmetry]; apply lookup_ge_None_2;
      rewrite rotate_length; lia.
Qed.

(** The end-to-end example of the specification: a tone in channel 0 only
    gives, for the rotation offset 0, that tone in channel 0 and its
    negation in every other channel. *)
Example variant_tone : variant 0 tone_chunk = tone_variant.
Proof. vm_compute. reflexivity. Qed.




(** C4: for every chunk, every rotation offset [r] below the channel count
    and every frame, the rotation puts the sample of channel [c] at channel
    [(c + r) mod NCHANNELS]; that map is a bijection of the channel indices;
    and rotating by [r] and then by [NCHANNELS - r] gives the chunk back. *)
Theorem C4_rotation_bijection (arr d0 d1 : list Z) (r : nat) :
  length arr = OUT_DATASET_NWORDS ->
  length d0 = OUT_DATASET_NWORDS ->
  length d1 = OUT_DATASET_NWORDS ->
  (r < NCHANNELS)%nat ->
  (forall frame c, (frame < OUT_NSAMPLES)%nat -> (c < NCHANNELS)%nat ->
     rotate r arr d0 !! (frame * NCHANNELS + (c + r) mod NCHANNELS)%nat
     = arr !! (frame * NCHANNELS + c)%nat)
  /\ (forall c, (c < NCHANNELS)%nat -> (rot_index r c < NCHANNELS)%nat)
  /\ (forall c c', (c < NCHANNELS)%nat -> (c' < NCHANNELS)%nat ->
        rot_index r c = rot_index r c' -> c = c')
  /\ (forall c', (c' < NCHANNELS)%nat ->
        exists c, (c < NCHANNELS)%nat /\ rot_index r c = c')
  /\ rotate (NCHANNELS - r) (rotate r arr d0) d1 = arr.
Proof.
  intros Harr Hd0 Hd1 Hr. pose proof NCHANNELS_pos as Hpos.
  assert (forall frame c, (frame < OUT_NSAMPLES)%nat -> (c < NCHANNELS)%nat ->
            (frame * NCHANNELS + c < OUT_DATASET_NWORDS)%nat) as Hin.
  { intros frame c Hf Hc. rewrite OUT_DATASET_NWORDS_eq. nia. }
  split; [|split; [|split; [|split]]].
  - intros frame c Hf Hc. rewrite rotate_lookup by done.
    symmetry. apply list_lookup_lookup_total_lt. rewrite Harr. by apply Hin.
  - intros c _. apply rot_index_lt.
  - intros c c' Hc Hc' Heq. by apply (mod_add_inj c c' r NCHANNELS).
  - intros c' Hc'. exists (rot_index (NCHANNELS - r) c'). split.
    + apply rot_index_lt.
    + apply rot_index_cancel; [done|lia].
  - apply list_eq. intros j.
    destruct (Nat.lt_ge_cases j OUT_DATASET_NWORDS) as [Hj|Hj].
    + set (k := (j / NCHANNELS)%nat). set (c' := (j mod NCHANNELS)%nat).
      assert (j = (k * NCHANNELS + c')%nat) as Hjk
        by (unfold k, c'; pose proof (Nat.div_mod_eq j NCHANNELS); lia).
      assert (c' < NCHANNELS)%nat as Hc' by (apply Nat.mod_upper_bound; lia).
      assert (k < OUT_NSAMPLES)%nat as Hk.
      { rewrite OUT_DATASET_NWORDS_eq in Hj. nia. }
      rewrite Hjk.
      rewrite <- (rot_index_cancel r (NCHANNELS - r) c' Hc' ltac:(lia)) at 1.
      unfold rot_index at 1.
      rewrite rotate_lookup; [|done|done|apply rot_index_lt].
      unfold rot_index.
      pose proof (rotate_lookup r arr d0 k c' Hd0 Hk Hc') as Hinner.
      apply list_lookup_total_correct in Hinner. rewrite Hinner.
      symmetry. apply list_lookup_lookup_total_lt. rewrite Harr. by apply Hin.
    + transitivity (@None Z); [|symmetry]; apply lookup_ge_None_2.
      * rewrite rotate_length, Hd1. exact Hj.
      * rewrite Harr. exact Hj.
Qed.

Lemma C4_rotation_bijection_witness :
  rotate (NCHANNELS - 3) (rotate 3 ramp_chunk data_uninit) data_uninit = ramp_chunk.
Proof.
  refine (proj2 (proj2 (proj2 (proj2
            (C4_rotation_bijection ramp_chunk data_uninit data_uninit 3 _ _ _ _))))).
  - vm_compute. reflexivity.
  - vm_compute. reflexivity.
  - vm_compute. reflexivity.
  - vm_compute. lia.
Defined.

(** ** The sinks *)


Lemma advance_0 w : advance 0 [] w = w.
Proof.
  destruct w as [rs rp dk]. unfold advance. cbn.
  by rewrite Nat.add_0_r, app_nil_r.
Qed.

Lemma draw_advance n fs w k : draw (advance n fs w) k = draw w (n + k).
Proof. unfold draw, advance. cbn. by rewrite Nat.add_assoc. Qed.

Lemma save_to_file_advance src path arr chunk_i w :
  save_to_file src path arr chunk_i w
  = advance 1
      (option_list (attempt w 0 {| f_dir := path; f_src := src; f_chunk_i := chunk_i;
                                   f_data := take OUT_DATASET_NWORDS arr |})) w.
Proof.
  unfold save_to_file, std_rand, attempt, draw, advance, write_file. cbn.
  rewrite Nat.add_0_r, Nat.add_1_r.
  destruct (_ <? OUT_DROP_PERCENT); cbn; [by rewrite app_nil_r|done].
Qed.

Lemma save_to_file_all src (file_dir : nat -> out_dir) (file_data : nat -> list Z)
    chunk_i n w :
  foldl (fun w k => save_to_file src (file_dir k) (file_data k) chunk_i w) w (seq 0 n)
  = advance n
      (omap (fun k => attempt w k {| f_dir := file_dir k; f_src := src;
                                     f_chunk_i := chunk_i;
                                     f_data := take OUT_DATASET_NWORDS (file_data k) |})
            (seq 0 n)) w.
Proof.
  induction n as [|n IH]; [by rewrite advance_0|].
  rewrite seq_S, foldl_app, omap_app, IH. cbn [foldl omap list_omap].
  rewrite save_to_file_advance. unfold attempt at 1. rewrite draw_advance.
  unfold advance. cbn. rewrite Nat.add_0_r, <- !Nat.add_assoc, <- app_assoc.
  replace (rand_pos w + (n + 1))%nat with (rand_pos w + S n)%nat by lia.
  done.
Qed.

Lemma variant_length mic_offs arr : length (variant mic_offs arr) = OUT_DATASET_NWORDS.
Proof.
  unfold variant, data_uninit. rewrite normalize_length, rotate_length.
  apply length_replicate.
Qed.

Lemma dataset_save_signal out arr chunk_i w :
  dataset_save_chunk out arr chunk_i false w
  = (true, advance NCHANNELS
             (omap (fun r => attempt w r (variant_file out arr chunk_i r))
                   (seq 0 NCHANNELS)) w).
Proof.
  unfold dataset_save_chunk. rewrite for_range_unit, Nat.sub_0_r. f_equal.
  rewrite (save_to_file_all (dataset_srcpath out)
             (fun k => dir_angle (angle_dirs out !!! k)) (fun k => variant k arr)).
  apply (f_equal2 (advance NCHANNELS)); [|reflexivity].
  apply list_omap_ext, Forall2_same_length_lookup_2; [reflexivity|].
  intros i k k' Hk Hk'. rewrite Hk in Hk'. injection Hk' as <-.
  unfold variant_file. rewrite take_ge by (rewrite variant_length; reflexivity).
  reflexivity.
Qed.

Lemma attempts_filter (w : world) (mk : nat -> out_file) (l : list nat) :
  omap (fun r => attempt w r (mk r)) l
  = mk <$> filter (fun r => OUT_DROP_PERCENT <= draw w r) l.
Proof.
  induction l as [|r l IH]; [reflexivity|]. cbn [omap list_omap].
  rewrite filter_cons. unfold attempt at 1.
  destruct (Z.ltb_spec (draw w r) OUT_DROP_PERCENT).
  - rewrite decide_False by lia. exact IH.
  - rewrite decide_True by lia. cbn [fmap list_fmap]. f_equal. exact IH.
Qed.







(** C2 (the code departs from it): with draws below [OUT_DROP_PERCENT],
    [save_to_file] returns before it writes and [save_chunk] still returns
    true, with either sink: true is returned and no record is on disk.  The
    run counts such a chunk in [num_chunks], the number it reports as
    chunks recorded.  The Directional sink does return false on its other
    path that writes nothing, the one of a Silence chunk. *)
Theorem C2_dropped_chunk_counted :
  save_chunk {| silence_srcpath := "output-silence.raw" |} tone_chunk 288000 true
    world_drop_all
  = (true, {| rand_seq := rand_seq world_drop_all; rand_pos := 1; disk := [] |})
  /\ save_chunk sample_dataset tone_chunk 288000 false world_drop_all
     = (true, {| rand_seq := rand_seq world_drop_all; rand_pos := 8; disk := [] |})
  /\ save_chunk sample_dataset tone_chunk 288000 true world_drop_all
     = (false, world_drop_all)
  /\ process_raw_audio_file {| silence_srcpath := "output-silence.raw" |}
       recording_quiet world_drop_all
     = Done 1 {| rand_seq := rand_seq world_drop_all; rand_pos := 1; disk := [] |}
  /\ ~ submit_true_iff_written {| silence_srcpath := "output-silence.raw" |}
        tone_chunk 288000 true world_drop_all
  /\ ~ submit_true_iff_written sample_dataset tone_chunk 288000 false world_drop_all.
Proof.
  assert (save_chunk sample_dataset tone_chunk 288000 false world_drop_all
          = (true, {| rand_seq := rand_seq world_drop_all; rand_pos := 8; disk := [] |}))
    as Hsignal.
  { cbn [save_chunk dataset_base_output]. rewrite dataset_save_signal. reflexivity. }
  split; [reflexivity|]. split; [exact Hsignal|]. split; [reflexivity|].
  split; [vm_compute; reflexivity|].
  unfold submit_true_iff_written. split; intros [Hwritten _].
  - apply Hwritten; reflexivity.
  - apply Hwritten; [reflexivity|]. rewrite Hsignal. reflexivity.
Qed.

(** ** Processing a recording *)

Lemma secs2offs_skip : secs2offs (Float.to_double INITIAL_SKIP_S) = Some silence_scan_i.
Proof. reflexivity. Qed.

Lemma secs2offs_training :
  secs2offs (Float.to_double SILENCE_TRAINING_S) = Some (data_scan_i - silence_scan_i).
Proof. reflexivity. Qed.

Lemma nvals_threshold_eq : nvals_threshold = Some 409.
Proof. reflexivity. Qed.

Lemma offsets_from_S start n :
  offsets_from start (S n) = start :: offsets_from (start + chunk_len) n.
Proof.
  unfold offsets_from. cbn [seq fmap list_fmap]. f_equal; [lia|].
  rewrite <- fmap_S_seq, <- list_fmap_compose.
  apply list_fmap_ext. intros _ k _. cbn. lia.
Qed.

Section ChunkLoop.
Context {T : Type} `{base_output T}.
Variables (out : T) (raw : list Z) (thr nthr : Z).

Lemma chunk_loop_fold n : forall fuel chunk_i num w,
  (n < fuel)%nat ->
  chunk_i + Z.of_nat n * chunk_len <= len raw ->
  len raw < chunk_i + (Z.of_nat n + 1) * chunk_len ->
  chunk_loop fuel out raw thr nthr chunk_i num w
  = Some (foldl (submit out raw thr nthr) (num, w) (offsets_from chunk_i n)).
Proof.
  assert (0 < chunk_len) as Hpos by (rewrite chunk_len_eq; lia).
  induction n as [|n IH]; intros fuel chunk_i num w Hfuel Hlo Hhi;
    (destruct fuel as [|fuel]; [lia|]); cbn [chunk_loop].
  - destruct (Z.leb_spec chunk_i (len raw - chunk_len)); [lia|done].
  - destruct (Z.leb_spec chunk_i (len raw - chunk_len)); [|lia].
    rewrite offsets_from_S. cbn [foldl]. unfold submit at 2. cbn [fst snd].
    destruct (save_chunk out _ chunk_i _ w) as [saved w'].
    apply IH; lia.
Qed.

End ChunkLoop.

Section Process.
Context {T : Type} `{base_output T}.
Variables (out : T) (raw : list Z) (thr : Z).

Lemma process_done w m :
  data_scan_i < len raw ->
  silence_max raw silence_scan_i data_scan_i = Some m ->
  silence_threshold m = Some thr ->
  process_raw_audio_file out raw w
  = Done (fst (foldl (submit out raw thr 409) (0, w) (offsets_from data_scan_i (n_chunks raw))))
         (snd (foldl (submit out raw thr 409) (0, w) (offsets_from data_scan_i (n_chunks raw)))).
Proof.
  intros Hlen Hmax Hthr. unfold process_raw_audio_file.
  rewrite secs2offs_skip, secs2offs_training. cbn [bind_undef].
  replace (silence_scan_i + (data_scan_i - silence_scan_i)) with data_scan_i by lia.
  unfold silence_scan_i, data_scan_i in *.
  destruct (Z.leb_spec (len raw) 96000); [lia|].
  destruct (Z.leb_spec (len raw) 288000); [lia|]. cbn [orb].
  rewrite Hmax. cbn [bind_undef]. rewrite Hthr. cbn [bind_undef].
  rewrite nvals_threshold_eq. cbn [bind_undef].
  rewrite (chunk_loop_fold out raw thr 409 (n_chunks raw)); [done|..].
  - unfold n_chunks, data_scan_i. rewrite chunk_len_eq.
    assert ((len raw - 288000) / 4096 <= len raw)
      by (apply Z.div_le_upper_bound; lia).
    lia.
  - unfold n_chunks, data_scan_i. rewrite chunk_len_eq.
    rewrite Z2Nat.id by (apply Z.div_pos; lia).
    pose proof (Z.mul_div_le (len raw - 288000) 4096). lia.
  - unfold n_chunks, data_scan_i. rewrite chunk_len_eq.
    rewrite Z2Nat.id by (apply Z.div_pos; lia).
    pose proof (Z.mul_succ_div_gt (len raw - 288000) 4096). lia.
Qed.
End Process.

(** ** The floating-point product of the calibration

    [double(silence_max) * VALID_SAMPLE_THRESHOLD] through the definitions of
    [SpecFloat]: a product whose exact value fits the 53-bit significand is
    computed without rounding, and one of 54 bits loses its last bit to a
    rounding to nearest, ties to even. *)

Module FloatFacts.

Lemma digits2_size (p : positive) : digits2_pos p = Pos.size p.
Proof. induction p as [p IH|p IH|]; cbn; by rewrite ?IH. Qed.

Lemma Zdigits2_log2 (p : positive) : Zdigits2 (Zpos p) = Z.log2 (Zpos p) + 1.
Proof.
  unfold Zdigits2. rewrite digits2_size.
  destruct p as [p|p|]; cbn [Z.log2 Pos.size]; lia.
Qed.

Lemma iter_pos_nat {A : Type} (f : A -> A) (p : positive) (x : A) :
  SpecFloat.iter_pos f p x = Nat.iter (Pos.to_nat p) f x.
Proof.
  induction p as [p IH|p IH|] in x |- *; cbn [SpecFloat.iter_pos].
  - rewrite !IH, Pos2Nat.inj_xI.
    replace (S (2 * Pos.to_nat p)) with (Pos.to_nat p + (Pos.to_nat p + 1))%nat by lia.
    rewrite !Nat.iter_add. done.
  - rewrite !IH, Pos2Nat.inj_xO.
    replace (2 * Pos.to_nat p)%nat with (Pos.to_nat p + Pos.to_nat p)%nat by lia.
    by rewrite Nat.iter_add.
  - done.
Qed.

(** Shifting out [n] zero bits leaves the round and sticky bits clear. *)
Lemma iter_shr_exact (n : nat) (q : positive) :
  Nat.iter n shr_1
    {| shr_m := Zpos q * 2 ^ Z.of_nat n; shr_r := false; shr_s := false |}
  = {| shr_m := Zpos q; shr_r := false; shr_s := false |}.
Proof.
  induction n as [|n IH].
  - cbn [Nat.iter Z.of_nat]. by rewrite Z.pow_0_r, Z.mul_1_r.
  - rewrite Nat.iter_succ_r.
    assert (exists p', Zpos q * 2 ^ Z.of_nat n = Zpos p') as [p' Hp'].
    { assert (0 < Zpos q * 2 ^ Z.of_nat n) as Hpos
        by (apply Z.mul_pos_pos; [lia|apply Z.pow_pos_nonneg; lia]).
      destruct (Zpos q * 2 ^ Z.of_nat n) as [|p'|p'] eqn:Heq; try lia. by exists p'. }
    replace (Zpos q * 2 ^ Z.of_nat (S n)) with (Zpos p'~0).
    + cbn [shr_1 orb]. rewrite <- Hp'. apply IH.
    + rewrite Nat2Z.inj_succ, Z.pow_succ_r by lia. lia.
Qed.

Lemma iter_xO (p k : positive) : Zpos (Pos.iter xO p k) = Zpos p * 2 ^ Zpos k.
Proof.
  induction k as [|k IH] using Pos.peano_ind.
  - cbn [Pos.iter]. lia.
  - rewrite Pos.iter_succ, Pos2Z.inj_succ, Z.pow_succ_r by lia. lia.
Qed.

(** Rounding a significand that ends in enough zero bits is exact. *)
Lemma binary_round_aux_exact (M q : positive) (E n : Z) :
  0 <= n ->
  Zpos M = Zpos q * 2 ^ n ->
  fexp 53 1024 (Zdigits2 (Zpos M) + E) = E + n ->
  E + n <= 971 ->
  binary_round_aux 53 1024 false (Zpos M) E loc_Exact = S754_finite false q (E + n).
Proof.
  intros Hn HM Hfexp Hmax.
  assert (fexp 53 1024 (Zdigits2 (Zpos q) + (E + n)) = E + n) as Hfexp'.
  { replace (Zdigits2 (Zpos q) + (E + n)) with (Zdigits2 (Zpos M) + E); [done|].
    rewrite !Zdigits2_log2, HM, Z.log2_mul_pow2 by lia. lia. }
  unfold binary_round_aux, shr_fexp at 1. rewrite Hfexp.
  replace (E + n - E) with n by lia.
  cbn [shr_record_of_loc]. unfold shr.
  destruct n as [|k|k]; [| |lia].
  - assert (M = q) as -> by lia.
    cbn [shr_m loc_of_shr_record round_nearest_even].
    unfold shr_fexp. rewrite Z.add_0_r in Hfexp'. rewrite Hfexp', Z.add_0_r, Z.sub_diag.
    cbn [shr_record_of_loc shr shr_m].
    destruct (Z.leb_spec E (1024 - 53)); [done|lia].
  - assert (SpecFloat.iter_pos shr_1 k
              {| shr_m := Zpos M; shr_r := false; shr_s := false |}
            = {| shr_m := Zpos q; shr_r := false; shr_s := false |}) as ->.
    { rewrite iter_pos_nat, HM, <- (iter_shr_exact (Pos.to_nat k) q).
      by rewrite positive_nat_Z. }
    cbn [shr_m loc_of_shr_record round_nearest_even].
    unfold shr_fexp. rewrite Hfexp', Z.sub_diag.
    cbn [shr_record_of_loc shr shr_m].
    destruct (Z.leb_spec (E + Zpos k) (1024 - 53)); [done|lia].
Qed.

(** An integer below 2^53 converts to [double] exactly. *)
Lemma double_of_Z_pos (p : positive) :
  Z.log2 (Zpos p) < 53 ->
  exists M, Float.double_of_Z (Zpos p) = S754_finite false M (Z.log2 (Zpos p) - 52)
            /\ Zpos M = Zpos p * 2 ^ (52 - Z.log2 (Zpos p)).
Proof.
  intros Hlog. pose proof (Z.log2_nonneg (Zpos p)) as Hlog0.
  set (L := Z.log2 (Zpos p)) in *.
  unfold Float.double_of_Z, binary_normalize, binary_round, shl_align.
  rewrite Z.add_0_r.
  change (Zpos (digits2_pos p)) with (Zdigits2 (Zpos p)).
  rewrite Zdigits2_log2. fold L.
  assert (fexp 53 1024 (L + 1) = L - 52) as -> by (unfold fexp, emin; lia).
  rewrite Z.sub_0_r.
  destruct (L - 52) as [|k|k] eqn:Hk; [|lia|].
  - exists p. split.
    + rewrite (binary_round_aux_exact p p 0 0); [done|lia|lia| |lia].
      rewrite Zdigits2_log2. fold L. unfold fexp, emin. lia.
    + replace (52 - L) with 0 by lia. lia.
  - exists (Pos.iter xO p k). split.
    + rewrite (binary_round_aux_exact (Pos.iter xO p k) (Pos.iter xO p k) (Zneg k) 0);
        [by rewrite Z.add_0_r|lia|lia| |lia].
      rewrite Zdigits2_log2, iter_xO, Z.log2_mul_pow2 by lia. fold L.
      unfold fexp, emin. lia.
    + rewrite iter_xO. f_equal. f_equal. lia.
Qed.

Lemma threshold_factor_double :
  Float.to_double VALID_SAMPLE_THRESHOLD = S754_finite false 4953959697481728 (-52).
Proof. reflexivity. Qed.

(** The multiplier is the [float] nearest to 1.1, 9227469 / 2^23. *)
Lemma threshold_factor_value : 4953959697481728 = 9227469 * 2 ^ 29.
Proof. reflexivity. Qed.

(** While the product with the multiplier stays below 2^53 the threshold
    is the exact product, truncated. *)
Lemma silence_threshold_exact (m : Z) :
  0 <= m -> m * 9227469 < 2 ^ 53 -> silence_threshold m = Some (m * 9227469 / 2 ^ 23).
Proof.
  intros Hm0 Hm. destruct m as [|p|p]; [reflexivity| |lia].
  unfold silence_threshold. rewrite threshold_factor_double.
  assert (Z.log2 (Zpos p) < 53) as Hlp by (apply Z.log2_lt_pow2; lia).
  pose proof (Z.log2_nonneg (Zpos p)) as Hlp0.
  destruct (double_of_Z_pos p) as (M & -> & HM); [lia|].
  set (lp := Z.log2 (Zpos p)) in *.
  set (L := Z.log2 (Zpos p * 9227469)).
  assert (23 <= L < 53) as HL.
  { unfold L. split.
    - apply Z.log2_le_pow2; [lia|]. change (2 ^ 23) with 8388608. lia.
    - apply Z.log2_lt_pow2; [lia|exact Hm]. }
  assert (lp <= L) as HlpL by (apply Z.log2_le_mono; lia).
  assert (0 < Zpos p * 9227469 * 2 ^ (52 - L)) as Hqpos
    by (apply Z.mul_pos_pos; [lia|apply Z.pow_pos_nonneg; lia]).
  destruct (Zpos p * 9227469 * 2 ^ (52 - L)) as [|q|q] eqn:Hq; [lia| |lia].
  unfold Float.mul, SFmul. cbn [xorb].
  rewrite (binary_round_aux_exact (M * 4953959697481728) q (lp - 52 + -52) (L + (52 - lp) - 23)).
  - replace (lp - 52 + -52 + (L + (52 - lp) - 23)) with (L - 75) by lia.
    unfold Float.to_int32, Float.trunc.
    destruct (Z.leb_spec 0 (L - 75)); [lia|]. cbn [cond_Zopp].
    rewrite Z.quot_div_nonneg by (try apply Z.pow_pos_nonneg; lia).
    rewrite <- Hq.
    replace (- (L - 75)) with (23 + (52 - L)) by lia.
    rewrite Z.pow_add_r by lia.
    rewrite Z.div_mul_cancel_r by (try apply Z.pow_nonzero; lia).
    assert (0 <= Zpos p * 9227469 / 2 ^ 23 < 2 ^ 30) as Hrange.
    { split; [apply Z.div_pos; lia|].
      apply Z.div_lt_upper_bound; [lia|].
      change (2 ^ 53) with 9007199254740992 in Hm.
      change (2 ^ 23 * 2 ^ 30) with 9007199254740992. lia. }
    change (2 ^ 30) with 1073741824 in Hrange. unfold INT32_MIN, INT32_MAX.
    destruct (Z.leb_spec (-2147483648) (Zpos p * 9227469 / 2 ^ 23)); [|lia].
    destruct (Z.leb_spec (Zpos p * 9227469 / 2 ^ 23) 2147483647); [done|lia].
  - lia.
  - rewrite Pos2Z.inj_mul, HM, threshold_factor_value, <- Hq.
    replace (L + (52 - lp) - 23) with ((52 - lp) + 29 - (52 - L)) by lia.
    transitivity (Zpos p * 9227469 * (2 ^ (52 - lp) * 2 ^ 29)); [ring|].
    rewrite <- !Z.mul_assoc. do 2 f_equal.
    rewrite <- !Z.pow_add_r by lia. f_equal. lia.
  - rewrite Zdigits2_log2, Pos2Z.inj_mul, HM, threshold_factor_value.
    replace (Zpos p * 2 ^ (52 - lp) * (9227469 * 2 ^ 29))
      with (Zpos p * 9227469 * 2 ^ ((52 - lp) + 29))
      by (rewrite Z.pow_add_r by lia; ring).
    rewrite Z.log2_mul_pow2 by lia. fold L.
    unfold fexp, emin. lia.
  - lia.
Qed.

Lemma log2_53 (x : Z) : 2 ^ 53 <= x < 2 ^ 54 -> Z.log2 x = 53.
Proof. intros Hx. apply Z.log2_unique; [lia|]. exact Hx. Qed.

Lemma log2_52 (x : Z) : 2 ^ 52 <= x < 2 ^ 53 -> Z.log2 x = 52.
Proof. intros Hx. apply Z.log2_unique; [lia|]. exact Hx. Qed.

(** Rounding a 54-bit significand: one bit is shifted out and the result
    is rounded to nearest, ties to even. *)
Lemma binary_round_aux_half (M x : positive) (E n : Z) :
  0 <= n ->
  Zpos M = Zpos x * 2 ^ n ->
  2 ^ 53 <= Zpos x < 2 ^ 54 - 1 ->
  -1074 <= E + n + 1 <= 971 ->
  exists r, binary_round_aux 53 1024 false (Zpos M) E loc_Exact
            = S754_finite false r (E + n + 1)
            /\ 2 * Zpos r = round53 (Zpos x).
Proof.
  intros Hn HM Hx HE.
  assert (Zdigits2 (Zpos M) = n + 54) as HdM.
  { rewrite Zdigits2_log2, HM, Z.log2_mul_pow2 by lia.
    rewrite (log2_53 (Zpos x)); lia. }
  assert (forall r, 2 ^ 52 <= Zpos r < 2 ^ 53 ->
            shr_fexp 53 1024 (Zpos r) (E + n + 1) loc_Exact
            = ({| shr_m := Zpos r; shr_r := false; shr_s := false |}, E + n + 1)) as Hkeep.
  { intros r Hr. unfold shr_fexp. rewrite Zdigits2_log2.
    rewrite (log2_52 (Zpos r)) by lia.
    replace (fexp 53 1024 (52 + 1 + (E + n + 1)) - (E + n + 1)) with 0
      by (unfold fexp, emin; lia).
    reflexivity. }
  assert (SpecFloat.iter_pos shr_1 (Z.to_pos (n + 1))
            {| shr_m := Zpos M; shr_r := false; shr_s := false |}
          = shr_1 {| shr_m := Zpos x; shr_r := false; shr_s := false |}) as Hiter.
  { rewrite iter_pos_nat.
    replace (Pos.to_nat (Z.to_pos (n + 1))) with (S (Z.to_nat n)) by lia.
    cbn [Nat.iter]. f_equal. rewrite HM, <- (iter_shr_exact (Z.to_nat n) x).
    by rewrite Z2Nat.id. }
  unfold round53. destruct (Z.ltb_spec (Zpos x) (2 ^ 53)) as [|_]; [lia|].
  unfold binary_round_aux, shr_fexp at 1. rewrite HdM.
  replace (fexp 53 1024 (n + 54 + E) - E) with (n + 1) by (unfold fexp, emin; lia).
  cbn [shr_record_of_loc]. unfold shr.
  destruct (n + 1) as [|k|k] eqn:Hk; [lia| |lia].
  cbn [Z.to_pos] in Hiter. rewrite Hiter. clear Hiter. rewrite <- Hk.
  replace (E + (n + 1)) with (E + n + 1) by lia.
  assert (forall r, 2 ^ 52 <= Zpos r < 2 ^ 53 ->
            (let '(mrs'', e'') := shr_fexp 53 1024 (Zpos r) (E + n + 1) loc_Exact in
             match shr_m mrs'' with
             | 0 => S754_zero false
             | Zpos m => if e'' <=? 1024 - 53 then S754_finite false m e''
                         else S754_infinity false
             | Zneg _ => S754_nan
             end) = S754_finite false r (E + n + 1)) as Hfin.
  { intros r Hr. rewrite (Hkeep r Hr). cbn [shr_m].
    destruct (Z.leb_spec (E + n + 1) (1024 - 53)); [done|lia]. }
  clear Hkeep HdM HM Hk.
  change (2 ^ 52) with 4503599627370496 in *.
  change (2 ^ 53) with 9007199254740992 in *.
  change (2 ^ 54) with 18014398509481984 in *.
  destruct x as [p'|p'|]; [| |lia].
  - cbn [shr_1 shr_m loc_of_shr_record orb round_nearest_even].
    rewrite <- !Z.div2_div. cbn [Z.div2 Pos.div2].
    change (Z.even (Zpos p'~1)) with false. cbv iota.
    destruct (Z.even (Zpos p')) eqn:Heven.
    + exists p'. split; [apply Hfin; lia|done].
    + exists (p' + 1)%positive. split; [apply (Hfin (p' + 1)%positive); lia|lia].
  - cbn [shr_1 shr_m loc_of_shr_record orb round_nearest_even].
    rewrite <- !Z.div2_div. cbn [Z.div2 Pos.div2].
    change (Z.even (Zpos p'~0)) with true. cbv iota.
    exists p'. split; [apply Hfin; lia|done].
Qed.

(** From 2^53 on the product is rounded to 53 bits before the
    truncation.  1952257819 is the greatest peak whose threshold is an
    [int32_t]. *)
Lemma silence_threshold_rounded (m : Z) :
  2 ^ 53 <= m * 9227469 -> m <= 1952257819 ->
  silence_threshold m = Some (round53 (m * 9227469) / 2 ^ 23).
Proof.
  intros Hlo Hhi. destruct m as [|p|p]; [lia| |lia].
  change (2 ^ 53) with 9007199254740992 in Hlo.
  unfold silence_threshold. rewrite threshold_factor_double.
  assert (Z.log2 (Zpos p) < 31) as Hlp
    by (apply Z.log2_lt_pow2; [lia|]; change (2 ^ 31) with 2147483648; lia).
  pose proof (Z.log2_nonneg (Zpos p)) as Hlp0.
  destruct (double_of_Z_pos p) as (M & -> & HM); [lia|].
  set (lp := Z.log2 (Zpos p)) in *.
  unfold Float.mul, SFmul. cbn [xorb].
  destruct (binary_round_aux_half (M * 4953959697481728) (p * 9227469)
              (lp - 52 + -52) (52 - lp + 29)) as (r & -> & Hr).
  - lia.
  - rewrite !Pos2Z.inj_mul, HM, threshold_factor_value.
    rewrite Z.pow_add_r by lia. ring.
  - rewrite Pos2Z.inj_mul.
    change (2 ^ 53) with 9007199254740992. change (2 ^ 54) with 18014398509481984. lia.
  - lia.
  - rewrite Pos2Z.inj_mul in Hr. rewrite <- Hr.
    replace (lp - 52 + -52 + (52 - lp + 29) + 1) with (-22) by lia.
    unfold Float.to_int32, Float.trunc. cbn [Z.leb Z.compare cond_Zopp Z.opp].
    change (- (-22)) with 22.
    rewrite Z.quot_div_nonneg by lia.
    change (2 ^ 23) with (2 * 2 ^ 22).
    rewrite Z.div_mul_cancel_l by lia.
    assert (0 <= Zpos r / 2 ^ 22 <= INT32_MAX) as Hrange.
    { assert (2 * Zpos r <= Zpos p * 9227469 + 1) as Hle.
      { rewrite Hr. unfold round53.
        destruct (_ <? _); [lia|].
        destruct (Z.even (Zpos p * 9227469)) eqn:Heven;
          [|destruct (Z.even (Zpos p * 9227469 / 2))].
        - Z.to_euclidean_division_equations. lia.
        - Z.to_euclidean_division_equations. lia.
        - rewrite <- Z.negb_odd in Heven.
          apply negb_false_iff, Z.odd_spec in Heven. destruct Heven as [h Hh].
          Z.to_euclidean_division_equations. lia. }
      split; [apply Z.div_pos; lia|].
      unfold INT32_MAX. apply Z.lt_succ_r, Z.div_lt_upper_bound; [lia|].
      change (2 ^ 22 * Z.succ 2147483647) with 9007199254740992. lia. }
    unfold INT32_MIN, INT32_MAX in *.
    destruct (Z.leb_spec (-2147483648) (Zpos r / 2 ^ 22)); [|lia].
    destruct (Z.leb_spec (Zpos r / 2 ^ 22) 2147483647); [done|lia].
Qed.

(** The threshold of every peak up to 1952257819. *)
Lemma silence_threshold_round53 (m : Z) :
  0 <= m <= 1952257819 ->
  silence_threshold m = Some (round53 (m * 9227469) / 2 ^ 23).
Proof.
  intros [Hm0 Hm]. destruct (Z.lt_ge_cases (m * 9227469) (2 ^ 53)) as [Hlt|Hge].
  - rewrite silence_threshold_exact by done. unfold round53.
    destruct (Z.ltb_spec (m * 9227469) (2 ^ 53)); [done|lia].
  - by apply silence_threshold_rounded.
Qed.

End FloatFacts.

(** ** Calibration *)

Lemma peak_abs_nonneg l : 0 <= peak_abs l.
Proof. induction l as [|x l IH]; cbn [peak_abs foldr]; [done|]. fold (peak_abs l). lia. Qed.

Lemma peak_abs_upper l v : v ∈ l -> Z.abs v <= peak_abs l.
Proof.
  induction 1 as [x l|x y l _ IH]; cbn [peak_abs foldr]; fold (peak_abs l); lia.
Qed.

Lemma peak_abs_attained l : l <> [] -> exists v, v ∈ l /\ Z.abs v = peak_abs l.
Proof.
  induction l as [|x l IH]; [done|]. intros _.
  cbn [peak_abs foldr]. fold (peak_abs l).
  destruct (Z.max_spec (Z.abs x) (peak_abs l)) as [[Hlt ->]|[Hle ->]].
  - destruct l as [|y l]; [cbn in Hlt; lia|].
    destruct IH as (v & Hv & Habs); [done|].
    exists v. split; [by apply list_elem_of_further|done].
  - exists x. split; [apply list_elem_of_here|done].
Qed.

Lemma max_element_from_peak x l :
  labs (max_element_from int32_cmp_abs x l) = Z.max (Z.abs x) (peak_abs l).
Proof.
  induction l as [|y l IH] in x |- *; cbn [max_element_from peak_abs foldr].
  - unfold labs. lia.
  - fold (peak_abs l). rewrite IH. unfold int32_cmp_abs, labs.
    destruct (Z.ltb_spec (Z.abs x) (Z.abs y)); lia.
Qed.

Lemma max_element_peak l :
  l <> [] -> exists v, max_element int32_cmp_abs l = Some v /\ labs v = peak_abs l.
Proof.
  destruct l as [|x l]; [done|]. intros _. eexists. split; [reflexivity|].
  apply max_element_from_peak.
Qed.

Lemma range_length raw lo hi :
  0 <= lo <= hi -> hi <= len raw -> length (range raw lo hi) = Z.to_nat (hi - lo).
Proof.
  unfold range, len. intros Hlo Hhi. rewrite length_take, length_drop. lia.
Qed.

Lemma range_lookup raw lo hi i :
  0 <= lo -> (i < Z.to_nat (hi - lo))%nat ->
  range raw lo hi !! i = raw !! (Z.to_nat lo + i)%nat.
Proof.
  unfold range. intros Hlo Hi. by rewrite lookup_take_lt, lookup_drop.
Qed.

Lemma window_nonempty raw :
  data_scan_i < len raw -> range raw silence_scan_i data_scan_i <> [].
Proof.
  intros Hlen Hnil. apply (f_equal length) in Hnil.
  rewrite range_length in Hnil by (unfold silence_scan_i, data_scan_i in *; lia).
  unfold silence_scan_i, data_scan_i in Hnil. cbn [length] in Hnil. lia.
Qed.

(** On a recording longer than the calibration window [silence_max] is
    defined: it is the peak of the window, wrapped to [int32_t]. *)
Lemma silence_max_peak raw :
  data_scan_i < len raw ->
  silence_max raw silence_scan_i data_scan_i
  = Some (int32_wrap (peak_abs (range raw silence_scan_i data_scan_i))).
Proof.
  intros Hlen. unfold silence_max.
  destruct (max_element_peak _ (window_nonempty raw Hlen)) as (v & -> & <-). done.
Qed.

(** ** Classification *)

Lemma count_if_filter (p : Z -> bool) (l : list Z) :
  count_if p l = Z.of_nat (length (filter (fun v => p v = true) l)).
Proof.
  induction l as [|x l IH]; [done|]. cbn [count_if].
  rewrite filter_cons. destruct (p x) eqn:Hp.
  - rewrite decide_True by done. cbn [length]. lia.
  - rewrite decide_False by congruence. lia.
Qed.

Lemma count_if_all (p : Z -> bool) (l : list Z) :
  (forall v, v ∈ l -> p v = true) -> count_if p l = Z.of_nat (length l).
Proof.
  induction l as [|x l IH]; intros Hall; [done|]. cbn [count_if length].
  rewrite (Hall x) by apply list_elem_of_here.
  rewrite IH by (intros v Hv; by apply Hall, list_elem_of_further). lia.
Qed.

Lemma offsets_from_lookup start n k :
  (k < n)%nat -> offsets_from start n !! k = Some (start + Z.of_nat k * chunk_len).
Proof.
  intros Hk. unfold offsets_from. by rewrite list_lookup_fmap, lookup_seq_lt.
Qed.

Lemma offsets_from_elem start n off :
  off ∈ offsets_from start n ->
  exists k, (k < n)%nat /\ off = start + Z.of_nat k * chunk_len.
Proof.
  unfold offsets_from. intros (k & -> & Hk)%list_elem_of_fmap.
  apply elem_of_seq in Hk. exists k. split; [lia|done].
Qed.

Lemma n_chunks_bounds raw :
  data_scan_i < len raw ->
  data_scan_i + Z.of_nat (n_chunks raw) * chunk_len <= len raw
  < data_scan_i + Z.of_nat (n_chunks raw) * chunk_len + chunk_len.
Proof.
  intros Hlen. unfold n_chunks. rewrite chunk_len_eq.
  rewrite Z2Nat.id by (apply Z.div_pos; lia).
  pose proof (Z.mul_div_le (len raw - data_scan_i) 4096).
  pose proof (Z.mul_succ_div_gt (len raw - data_scan_i) 4096). lia.
Qed.

Lemma chunk_in_bounds raw off :
  data_scan_i < len raw ->
  off ∈ offsets_from data_scan_i (n_chunks raw) ->
  data_scan_i <= off /\ off + chunk_len <= len raw.
Proof.
  intros Hlen (k & Hk & ->)%offsets_from_elem.
  pose proof (n_chunks_bounds raw Hlen) as [Hlo _].
  assert (0 < chunk_len) by (rewrite chunk_len_eq; lia). nia.
Qed.

(** ** The classifier (C1) *)

(** C1 fails: the minimum count the code computes is 409, not
    ceil(4096 * 10 / 100) = 410, so a chunk with exactly 409 samples at or
    above the threshold is Silence. *)
Lemma C1_counterexample :
  nvals_threshold = Some 409
  /\ calibrate recording_409 = Some 1
  /\ range recording_409 data_scan_i (data_scan_i + chunk_len) = chunk_409
  /\ nvals 1 chunk_409 = 409
  /\ is_silence 1 409 chunk_409 = true
  /\ ~ classified_by_ceiling 1 409 chunk_409
  /\ process_raw_audio_file sample_dataset
       recording_409 world_keep_all
     = Done 0 world_keep_all.
Proof.
  split; [reflexivity|].
  split; [vm_compute; reflexivity|].
  split; [vm_compute; reflexivity|].
  split; [vm_compute; reflexivity|].
  split; [vm_compute; reflexivity|].
  split; [|vm_compute; reflexivity].
  unfold classified_by_ceiling. intros [Hceil _].
  assert (is_silence 1 409 chunk_409 = true) as Hsilence by (vm_compute; reflexivity).
  specialize (Hceil Hsilence). vm_compute in Hceil. by apply Hceil.
Qed.

(** C1, amended: the classifier counts the samples whose absolute value is
    at least the silence threshold and labels the chunk Silence exactly when
    that count is at least floor(F * 10 / 100) = 409, otherwise Signal. *)
Theorem C1_classifier (silence_threshold : Z) (chunk : list Z) :
  nvals_threshold = Some (chunk_len * 10 / 100)
  /\ chunk_len * 10 / 100 = 409
  /\ nvals silence_threshold chunk
     = Z.of_nat (length (filter (fun v => silence_threshold <= Z.abs v) chunk))
  /\ (is_silence silence_threshold 409 chunk = true
      <-> 409 <= Z.of_nat (length (filter (fun v => silence_threshold <= Z.abs v) chunk)))
  /\ (is_silence silence_threshold 409 chunk = false
      <-> Z.of_nat (length (filter (fun v => silence_threshold <= Z.abs v) chunk)) < 409).
Proof.
  assert (nvals silence_threshold chunk
          = Z.of_nat (length (filter (fun v => silence_threshold <= Z.abs v) chunk))) as Hn.
  { unfold nvals. rewrite count_if_filter. do 2 f_equal.
    apply list_filter_iff. intros v. unfold cmp_to_threshold, labs. lia. }
  split; [reflexivity|]. split; [reflexivity|]. split; [exact Hn|].
  unfold is_silence. rewrite Hn.
  destruct (Z.leb_spec 409
    (Z.of_nat (length (filter (fun v => silence_threshold <= Z.abs v) chunk))));
    split; split; intros; try done; lia.
Qed.

(** ** The silence threshold (C5, C6) *)

(** Up to the peak 1952257819 the calibration is defined. *)
Lemma calibrate_peak (raw : list Z) :
  data_scan_i < len raw ->
  peak_abs (range raw silence_scan_i data_scan_i) <= 1952257819 ->
  silence_max raw silence_scan_i data_scan_i
    = Some (peak_abs (range raw silence_scan_i data_scan_i))
  /\ calibrate raw
    = Some (round53 (peak_abs (range raw silence_scan_i data_scan_i) * 9227469) / 2 ^ 23).
Proof.
  intros Hlen Hpeak.
  pose proof (peak_abs_nonneg (range raw silence_scan_i data_scan_i)) as Hpeak0.
  assert (silence_max raw silence_scan_i data_scan_i
          = Some (peak_abs (range raw silence_scan_i data_scan_i))) as Hmax.
  { rewrite silence_max_peak by done. f_equal.
    apply int32_wrap_id. unfold in_int32, INT32_MIN, INT32_MAX. lia. }
  split; [exact Hmax|].
  unfold calibrate. rewrite Hmax. apply FloatFacts.silence_threshold_round53. lia.
Qed.

Lemma round53_exact (x : Z) : x < 2 ^ 53 -> round53 x = x.
Proof. intros Hx. unfold round53. destruct (Z.ltb_spec x (2 ^ 53)); [done|lia]. Qed.

Lemma round53_mono (x y : Z) : 0 <= x <= y -> round53 x <= round53 y.
Proof.
  intros Hxy. unfold round53. rewrite !Zeven_mod.
  change (2 ^ 53) with 9007199254740992.
  destruct (Z.ltb_spec x 9007199254740992), (Z.ltb_spec y 9007199254740992),
    (Z.eqb_spec (x mod 2) 0), (Z.eqb_spec (x / 2 mod 2) 0),
    (Z.eqb_spec (y mod 2) 0), (Z.eqb_spec (y / 2 mod 2) 0);
    Z.to_euclidean_division_equations; lia.
Qed.

Lemma round53_double (x : Z) : 0 <= x -> 2 * x < 2 ^ 54 -> round53 (2 * x) = 2 * round53 x.
Proof.
  intros Hx0 Hx. change (2 ^ 54) with 18014398509481984 in Hx.
  unfold round53. rewrite !Zeven_mod.
  change (2 ^ 53) with 9007199254740992.
  destruct (Z.ltb_spec x 9007199254740992), (Z.ltb_spec (2 * x) 9007199254740992),
    (Z.eqb_spec (2 * x mod 2) 0);
    Z.to_euclidean_division_equations; lia.
Qed.

(** The next peak has no threshold: the product no longer fits [int32_t]. *)
Lemma silence_threshold_overflow : silence_threshold 1952257820 = None.
Proof. reflexivity. Qed.

(** C5 fails: a calibration window with peak 1 gives the threshold 1, not
    1.1; the product is truncated to an integer. *)
Lemma C5_counterexample :
  calibrate (recording_peak 1) = Some 1 /\ ~ threshold_is_scaled_peak (recording_peak 1).
Proof.
  assert (calibrate (recording_peak 1) = Some 1) as Hcal by (vm_compute; reflexivity).
  split; [exact Hcal|]. intros (thr & Hthr & Hscaled).
  rewrite Hcal in Hthr. injection Hthr as <-.
  vm_compute in Hscaled. discriminate Hscaled.
Qed.

(** C5, amended: the skip and training durations become the sample
    offsets floor(rate * seconds) * channels; the calibration takes the
    greatest absolute sample value of [[skip_start, train_end)]; and the
    silence threshold is the [double] product of that peak and the [float]
    constant nearest to 1.1 (9227469 / 2^23), truncated toward zero to an
    [int32_t]: floor(peak * 9227469 / 2^23) while the product is below 2^53,
    and the same with the product rounded to 53 bits above.  This holds for
    every peak up to 1952257819, the greatest whose threshold is an
    [int32_t]. *)
Theorem C5_calibration (raw : list Z) :
  data_scan_i < len raw ->
  peak_abs (range raw silence_scan_i data_scan_i) <= 1952257819 ->
  let window := range raw silence_scan_i data_scan_i in
  secs2offs (Float.to_double INITIAL_SKIP_S)
    = Some (SAMPLES_PER_SECOND * 5 / 10 * Z.of_nat NCHANNELS)
  /\ secs2offs (Float.to_double SILENCE_TRAINING_S)
    = Some (SAMPLES_PER_SECOND * 10 / 10 * Z.of_nat NCHANNELS)
  /\ silence_scan_i = SAMPLES_PER_SECOND * 5 / 10 * Z.of_nat NCHANNELS
  /\ data_scan_i = silence_scan_i + SAMPLES_PER_SECOND * 10 / 10 * Z.of_nat NCHANNELS
  /\ silence_max raw silence_scan_i data_scan_i = Some (peak_abs window)
  /\ (forall v, v ∈ window -> Z.abs v <= peak_abs window)
  /\ (exists v, v ∈ window /\ Z.abs v = peak_abs window)
  /\ VALID_SAMPLE_THRESHOLD = S754_finite false 9227469 (-23)
  /\ calibrate raw
     = Float.to_int32 (Float.mul (Float.double_of_Z (peak_abs window))
                                 (Float.to_double VALID_SAMPLE_THRESHOLD))
  /\ calibrate raw = Some (round53 (peak_abs window * 9227469) / 2 ^ 23)
  /\ (peak_abs window * 9227469 < 2 ^ 53 ->
      calibrate raw = Some (peak_abs window * 9227469 / 2 ^ 23)).
Proof.
  intros Hlen Hpeak window.
  destruct (calibrate_peak raw Hlen Hpeak) as [Hmax Hcal]. fold window in Hmax, Hcal.
  repeat split; try reflexivity.
  - exact Hmax.
  - apply peak_abs_upper.
  - apply peak_abs_attained, window_nonempty, Hlen.
  - unfold calibrate. rewrite Hmax. reflexivity.
  - exact Hcal.
  - intros Hexact. rewrite Hcal. by rewrite round53_exact.
Qed.

Lemma C5_calibration_witness :
  calibrate (recording_peak 1000)
  = Some (round53 (peak_abs (range (recording_peak 1000) silence_scan_i data_scan_i)
                   * 9227469) / 2 ^ 23).
Proof.
  destruct (C5_calibration (recording_peak 1000))
    as (_ & _ & _ & _ & _ & _ & _ & _ & _ & Hcal & _).
  - vm_compute. reflexivity.
  - vm_compute. discriminate.
  - exact Hcal.
Defined.

(** C6 fails: the peaks 5 and 10 give the thresholds 5 and 11. *)
Lemma C6_counterexample :
  calibrate (recording_peak 5) = Some 5
  /\ calibrate (recording_peak 10) = Some 11
  /\ ~ doubling_doubles (recording_peak 5) (recording_peak 10).
Proof.
  assert (calibrate (recording_peak 5) = Some 5) as HA by (vm_compute; reflexivity).
  assert (calibrate (recording_peak 10) = Some 11) as HB by (vm_compute; reflexivity).
  split; [exact HA|]. split; [exact HB|]. intros Hclaim.
  destruct Hclaim as (tA & tB & HtA & HtB & Hdouble); [vm_compute; reflexivity|].
  rewrite HA in HtA. rewrite HB in HtB.
  injection HtA as <-. injection HtB as <-. discriminate Hdouble.
Qed.

(** C6, amended: the threshold is monotone (non-decreasing) in the peak of
    the training window, and doubling the peak gives twice the threshold or
    twice the threshold plus one.  This holds for every peak up to
    1952257819, the greatest whose threshold is an [int32_t]. *)
Theorem C6_threshold_monotone (rawA rawB : list Z) :
  data_scan_i < len rawA ->
  data_scan_i < len rawB ->
  peak_abs (range rawA silence_scan_i data_scan_i)
    <= peak_abs (range rawB silence_scan_i data_scan_i) ->
  peak_abs (range rawB silence_scan_i data_scan_i) <= 1952257819 ->
  exists tA tB,
    calibrate rawA = Some tA /\ calibrate rawB = Some tB
    /\ tA <= tB
    /\ (peak_abs (range rawB silence_scan_i data_scan_i)
          = 2 * peak_abs (range rawA silence_scan_i data_scan_i) ->
        2 * tA <= tB <= 2 * tA + 1).
Proof.
  intros HlenA HlenB Hle HpeakB.
  destruct (calibrate_peak rawA HlenA ltac:(lia)) as [_ HA].
  destruct (calibrate_peak rawB HlenB HpeakB) as [_ HB].
  pose proof (peak_abs_nonneg (range rawA silence_scan_i data_scan_i)) as HpA.
  set (pA := peak_abs (range rawA silence_scan_i data_scan_i)) in *.
  set (pB := peak_abs (range rawB silence_scan_i data_scan_i)) in *.
  exists (round53 (pA * 9227469) / 2 ^ 23), (round53 (pB * 9227469) / 2 ^ 23).
  split; [exact HA|]. split; [exact HB|].
  change (2 ^ 23) with 8388608. split.
  - apply Z.div_le_mono; [lia|]. apply round53_mono. lia.
  - intros HpB.
    replace (pB * 9227469) with (2 * (pA * 9227469)) by lia.
    rewrite round53_double
      by (try change (2 ^ 54) with 18014398509481984; lia).
    Z.to_euclidean_division_equations. lia.
Qed.

Lemma C6_threshold_monotone_witness :
  exists tA tB,
    calibrate (recording_peak 5) = Some tA /\ calibrate (recording_peak 10) = Some tB
    /\ tA <= tB
    /\ (peak_abs (range (recording_peak 10) silence_scan_i data_scan_i)
          = 2 * peak_abs (range (recording_peak 5) silence_scan_i data_scan_i) ->
        2 * tA <= tB <= 2 * tA + 1).
Proof.
  refine (C6_threshold_monotone (recording_peak 5) (recording_peak 10) _ _ _ _).
  - vm_compute. reflexivity.
  - vm_compute. reflexivity.
  - vm_compute. discriminate.
  - vm_compute. discriminate.
Defined.

(** ** The chunk loop (C7, C8, C10) *)

(** C7: from [data_scan_i] on, the loop hands to the sink, together with
    their starting offsets, the consecutive non-overlapping chunks of exactly
    [chunk_len] samples, as many as fit in the buffer; fewer than
    [chunk_len] samples are left after the last one and they are never
    handed over. *)
Theorem C7_chunk_iteration {T : Type} `{base_output T} (out : T) (raw : list Z)
    (w : world) (m thr : Z) :
  data_scan_i < len raw ->
  silence_max raw silence_scan_i data_scan_i = Some m ->
  silence_threshold m = Some thr ->
  let offs := offsets_from data_scan_i (n_chunks raw) in
  process_raw_audio_file out raw w
    = Done (fst (foldl (submit out raw thr 409) (0, w) offs))
           (snd (foldl (submit out raw thr 409) (0, w) offs))
  /\ length offs = n_chunks raw
  /\ (forall k, (k < n_chunks raw)%nat ->
        offs !! k = Some (data_scan_i + Z.of_nat k * chunk_len))
  /\ (forall off, off ∈ offs ->
        data_scan_i <= off /\ off + chunk_len <= len raw
        /\ length (range raw off (off + chunk_len)) = OUT_DATASET_NWORDS
        /\ forall i, (i < OUT_DATASET_NWORDS)%nat ->
             range raw off (off + chunk_len) !! i = raw !! (Z.to_nat off + i)%nat)
  /\ data_scan_i + Z.of_nat (n_chunks raw) * chunk_len <= len raw
     < data_scan_i + Z.of_nat (n_chunks raw) * chunk_len + chunk_len.
Proof.
  intros Hlen Hmax Hthr offs.
  split; [by apply (process_done out raw thr w m)|].
  split; [unfold offs, offsets_from; by rewrite length_fmap, length_seq|].
  split; [intros k Hk; by apply offsets_from_lookup|].
  split; [|by apply n_chunks_bounds].
  intros off Hoff. destruct (chunk_in_bounds raw off Hlen Hoff) as [Hlo Hhi].
  assert (0 <= off) by (unfold data_scan_i in Hlo; lia).
  assert (Z.to_nat (off + chunk_len - off) = OUT_DATASET_NWORDS) as Hwords.
  { rewrite chunk_len_words. lia. }
  split; [done|]. split; [done|]. split.
  - rewrite range_length; [done| |done]. rewrite chunk_len_eq. lia.
  - intros i Hi. apply range_lookup; [done|]. by rewrite Hwords.
Qed.

Lemma C7_chunk_iteration_witness :
  process_raw_audio_file {| silence_srcpath := "output-silence.raw" |}
    recording_quiet world_keep_all
  = Done
      (fst (foldl (submit {| silence_srcpath := "output-silence.raw" |} recording_quiet 0 409)
              (0, world_keep_all) (offsets_from data_scan_i (n_chunks recording_quiet))))
      (snd (foldl (submit {| silence_srcpath := "output-silence.raw" |} recording_quiet 0 409)
              (0, world_keep_all) (offsets_from data_scan_i (n_chunks recording_quiet)))).
Proof.
  refine (proj1 (C7_chunk_iteration {| silence_srcpath := "output-silence.raw" |}
                   recording_quiet world_keep_all 0 0 _ _ _)).
  - vm_compute. reflexivity.
  - vm_compute. reflexivity.
  - vm_compute. reflexivity.
Defined.

(** C8: a recording no longer than the skip and the calibration window
    together is fatal, for every sink: [fatal] is called in the world the
    processing started in, before any chunk is classified or any record
    written.  This includes the length [skip_offset + train_offset]
    itself. *)
Theorem C8_too_short {T : Type} `{base_output T} (out : T) (raw : list Z) (w : world)
    (skip_offset train_offset : Z) :
  secs2offs (Float.to_double INITIAL_SKIP_S) = Some skip_offset ->
  secs2offs (Float.to_double SILENCE_TRAINING_S) = Some train_offset ->
  len raw <= skip_offset + train_offset ->
  process_raw_audio_file out raw w = Fatal "input file is too short" w.
Proof.
  intros Hskip Htrain Hlen. unfold process_raw_audio_file.
  rewrite Hskip, Htrain. cbn [bind_undef].
  destruct (Z.leb_spec (len raw) (skip_offset + train_offset)) as [_|Hgt]; [|lia].
  by rewrite orb_true_r.
Qed.

Lemma C8_too_short_witness :
  process_raw_audio_file sample_dataset
    recording_short world_keep_all
  = Fatal "input file is too short" world_keep_all.
Proof.
  refine (C8_too_short sample_dataset
            recording_short world_keep_all 96000 192000 _ _ _).
  - reflexivity.
  - reflexivity.
  - vm_compute. discriminate.
Defined.

Lemma foldl_fixed {A B : Type} (f : A -> B -> A) (a : A) (l : list B) :
  (forall b, b ∈ l -> f a b = a) -> foldl f a l = a.
Proof.
  induction l as [|b l IH]; intros Hfix; [done|]. cbn [foldl].
  rewrite (Hfix b) by apply list_elem_of_here.
  apply IH. intros b' Hb'. by apply Hfix, list_elem_of_further.
Qed.

(** C10: when every sample of the calibration window is zero the silence
    threshold is 0, every chunk has all its [chunk_len] samples at or above
    it and is classified Silence, and the Directional Sink writes no record
    and makes no draw: the world is unchanged and no chunk is counted. *)
Theorem C10_zero_window (out : dataset_output) (raw : list Z) (w : world) :
  data_scan_i < len raw ->
  Forall (fun v => v = 0) (range raw silence_scan_i data_scan_i) ->
  calibrate raw = Some 0
  /\ (forall off, off ∈ offsets_from data_scan_i (n_chunks raw) ->
        nvals 0 (range raw off (off + chunk_len)) = chunk_len
        /\ is_silence 0 409 (range raw off (off + chunk_len)) = true)
  /\ process_raw_audio_file out raw w = Done 0 w.
Proof.
  intros Hlen Hzero.
  assert (peak_abs (range raw silence_scan_i data_scan_i) = 0) as Hpeak.
  { induction Hzero as [|v l -> _ IH]; [done|].
    cbn [peak_abs foldr]. fold (peak_abs l). rewrite IH. done. }
  assert (silence_max raw silence_scan_i data_scan_i = Some 0) as Hmax.
  { rewrite silence_max_peak by done. by rewrite Hpeak. }
  assert (forall off, off ∈ offsets_from data_scan_i (n_chunks raw) ->
            nvals 0 (range raw off (off + chunk_len)) = chunk_len
            /\ is_silence 0 409 (range raw off (off + chunk_len)) = true) as Hall.
  { intros off Hoff. destruct (chunk_in_bounds raw off Hlen Hoff) as [Hlo Hhi].
    assert (nvals 0 (range raw off (off + chunk_len)) = chunk_len) as Hn.
    { unfold nvals. rewrite count_if_all.
      - unfold data_scan_i in Hlo. rewrite chunk_len_eq in *.
        rewrite range_length; lia.
      - intros v _. unfold cmp_to_threshold, labs. lia. }
    split; [exact Hn|]. unfold is_silence. rewrite Hn, chunk_len_eq. reflexivity. }
  split; [|split; [exact Hall|]].
  - unfold calibrate. rewrite Hmax. reflexivity.
  - rewrite (process_done out raw 0 w 0 Hlen Hmax eq_refl).
    rewrite foldl_fixed; [done|].
    intros off Hoff. unfold submit. destruct (Hall off Hoff) as [_ ->]. done.
Qed.

Lemma C10_zero_window_witness :
  process_raw_audio_file sample_dataset
    recording_quiet world_keep_all
  = Done 0 world_keep_all.
Proof.
  refine (proj2 (proj2 (C10_zero_window
            sample_dataset
            recording_quiet world_keep_all _ _))).
  - vm_compute. reflexivity.
  - apply (bool_decide_unpack _). vm_compute. exact I.
Defined.

(** * Further properties of the code *)

(** ** Files as sample buffers *)

Lemma byte_val_range (b : byte) : 0 <= byte_val b <= 255.
Proof. unfold byte_val. pose proof (Byte.to_N_bounded b). lia. Qed.

Lemma byte_val_of_Z (z : Z) : byte_val (byte_of_Z z) = z mod 256.
Proof.
  unfold byte_val, byte_of_Z.
  pose proof (Z.mod_pos_bound z 256 ltac:(lia)) as Hz.
  destruct (Byte.of_N (Z.to_N (z mod 256))) as [b|] eqn:Hb.
  - apply Byte.to_of_N in Hb. rewrite Hb. lia.
  - apply Byte.of_N_None_iff in Hb. lia.
Qed.

Lemma byte_of_Z_val (b : byte) : byte_of_Z (byte_val b) = b.
Proof.
  unfold byte_of_Z. pose proof (byte_val_range b) as Hb.
  rewrite Z.mod_small by lia. unfold byte_val. rewrite N2Z.id.
  by rewrite Byte.of_to_N.
Qed.

Lemma int32_wrap_range (z : Z) : in_int32 (int32_wrap z).
Proof.
  unfold in_int32, int32_wrap, INT32_MIN, INT32_MAX.
  pose proof (Z.mod_pos_bound (z + 2147483648) 4294967296 ltac:(lia)). lia.
Qed.

Lemma s32le_len_cons4 (b0 b1 b2 b3 : byte) (rest : list byte) :
  s32le_len (b0 :: b1 :: b2 :: b3 :: rest) = 1 + s32le_len rest.
Proof.
  unfold s32le_len. cbn [length]. Z.to_euclidean_division_equations. lia.
Qed.

Lemma s32le_len_nonneg (bytes : list byte) : 0 <= s32le_len bytes.
Proof. unfold s32le_len. Z.to_euclidean_division_equations. lia. Qed.

Lemma s32le_raw_cons4 (b0 b1 b2 b3 : byte) (rest : list byte) :
  s32le_raw (b0 :: b1 :: b2 :: b3 :: rest)
  = int32_wrap (byte_val b0 + 256 * byte_val b1 + 65536 * byte_val b2
                + 16777216 * byte_val b3)
    :: s32le_raw rest.
Proof.
  unfold s32le_raw. rewrite s32le_len_cons4.
  pose proof (s32le_len_nonneg rest) as Hlen.
  replace (Z.to_nat (1 + s32le_len rest)) with (S (Z.to_nat (s32le_len rest))) by lia.
  cbn [seq fmap list_fmap]. f_equal.
  rewrite <- fmap_S_seq, <- list_fmap_compose.
  apply list_fmap_ext. intros _ i _. unfold compose, raw_word.
  replace (4 * S i)%nat with (S (S (S (S (4 * i))))) by lia.
  reflexivity.
Qed.

Lemma s32le_raw_short (bytes : list byte) :
  (length bytes < 4)%nat -> s32le_raw bytes = [].
Proof.
  intros Hlen. unfold s32le_raw.
  replace (s32le_len bytes) with 0; [done|].
  unfold s32le_len. Z.to_euclidean_division_equations. lia.
Qed.

Lemma word_of_bytes (z : Z) :
  in_int32 z ->
  let u := z mod 4294967296 in
  int32_wrap (u mod 256 + 256 * (u / 256 mod 256) + 65536 * (u / 65536 mod 256)
              + 16777216 * (u / 16777216 mod 256)) = z.
Proof.
  intros Hz u. unfold in_int32, INT32_MIN, INT32_MAX in Hz. unfold int32_wrap.
  assert (0 <= u < 4294967296) as Hu by (unfold u; apply Z.mod_pos_bound; lia).
  replace (u mod 256 + 256 * (u / 256 mod 256) + 65536 * (u / 65536 mod 256)
           + 16777216 * (u / 16777216 mod 256)) with u
    by (Z.to_euclidean_division_equations; lia).
  unfold u. Z.to_euclidean_division_equations. lia.
Qed.

Lemma s32le_raw_length (bytes : list byte) :
  len (s32le_raw bytes) = Z.of_nat (length bytes) / 4.
Proof.
  unfold len, s32le_raw. rewrite length_fmap, length_seq.
  pose proof (s32le_len_nonneg bytes). rewrite Z2Nat.id by done.
  unfold s32le_len. Z.to_euclidean_division_equations. lia.
Qed.

(** The reading of four bytes as a word: byte [k] gives the bits
    [8 * k], ..., [8 * k + 7], and the top bit of byte 3 is the sign. *)
Lemma le_word_bits (b0 b1 b2 b3 : Z) :
  0 <= b0 < 256 -> 0 <= b1 < 256 -> 0 <= b2 < 256 -> 0 <= b3 < 256 ->
  forall k b, (k = 0 /\ b = b0) \/ (k = 1 /\ b = b1) \/ (k = 2 /\ b = b2) \/ (k = 3 /\ b = b3) ->
    (forall j, 0 <= j < 8 ->
       Z.testbit (int32_wrap (b0 + 256 * b1 + 65536 * b2 + 16777216 * b3)) (8 * k + j)
       = Z.testbit b j)
    /\ (k = 3 -> (int32_wrap (b0 + 256 * b1 + 65536 * b2 + 16777216 * b3) < 0 <-> 128 <= b)).
Proof.
  intros H0 H1 H2 H3 k b Hk.
  set (u := b0 + 256 * b1 + 65536 * b2 + 16777216 * b3).
  assert (0 <= u < 4294967296) as Hu by (unfold u; lia).
  assert (int32_wrap u mod 2 ^ 32 = u) as Hmod.
  { unfold int32_wrap. change (2 ^ 32) with 4294967296.
    Z.to_euclidean_division_equations. lia. }
  assert (u / 2 ^ (8 * k) mod 2 ^ 8 = b) as Hbyte.
  { destruct Hk as [[-> ->]|[[-> ->]|[[-> ->]|[-> ->]]]]; unfold u.
    - change (2 ^ (8 * 0)) with 1. change (2 ^ 8) with 256.
      Z.to_euclidean_division_equations. lia.
    - change (2 ^ (8 * 1)) with 256. change (2 ^ 8) with 256.
      Z.to_euclidean_division_equations. lia.
    - change (2 ^ (8 * 2)) with 65536. change (2 ^ 8) with 256.
      Z.to_euclidean_division_equations. lia.
    - change (2 ^ (8 * 3)) with 16777216. change (2 ^ 8) with 256.
      Z.to_euclidean_division_equations. lia. }
  assert (0 <= k <= 3) as Hk03 by lia.
  split.
  - intros j Hj.
    rewrite <- (Z.mod_pow2_bits_low (int32_wrap u) 32 (8 * k + j)) by lia.
    rewrite Hmod, <- Hbyte.
    rewrite (Z.mod_pow2_bits_low _ 8 j) by lia.
    rewrite Z.div_pow2_bits by lia. f_equal. lia.
  - intros ->. assert (b = b3) as -> by lia.
    unfold int32_wrap. fold u. unfold u. Z.to_euclidean_division_equations. lia.
Qed.

(** X1: the buffer of a mapped file has floor(size / 4) samples, each a
    32-bit value, and sample [i] is the little-endian reading of the bytes
    [4 * i], ..., [4 * i + 3]: bit [j] of byte [4 * i + k] is bit
    [8 * k + j] of the sample, and the top bit of byte [4 * i + 3] is its
    sign. *)
Theorem X1_buffer_of_file (bytes : list byte) :
  s32le_open (mapped bytes) = inr (s32le_raw bytes)
  /\ len (s32le_raw bytes) = Z.of_nat (length bytes) / 4
  /\ Forall in_int32 (s32le_raw bytes)
  /\ forall (i k : nat) (b : byte),
       (4 * i + 3 < length bytes)%nat -> (k < 4)%nat ->
       bytes !! (4 * i + k)%nat = Some b ->
       exists word, s32le_raw bytes !! i = Some word
         /\ (forall j, 0 <= j < 8 ->
               Z.testbit word (8 * Z.of_nat k + j) = Z.testbit (byte_val b) j)
         /\ (k = 3%nat -> (word < 0 <-> 128 <= byte_val b)).
Proof.
  split; [reflexivity|]. split; [apply s32le_raw_length|]. split.
  { unfold s32le_raw. apply Forall_fmap, Forall_forall. intros i _.
    apply int32_wrap_range. }
  intros i k b Hi Hk Hb. exists (raw_word bytes i).
  assert (i < Z.to_nat (s32le_len bytes))%nat as Hlt.
  { unfold s32le_len. Z.to_euclidean_division_equations. lia. }
  split.
  { unfold s32le_raw. rewrite list_lookup_fmap, lookup_seq_lt by exact Hlt. reflexivity. }
  apply list_lookup_total_correct in Hb.
  assert (forall x, 0 <= byte_val x < 256) as Hrange
    by (intros x; pose proof (byte_val_range x); lia).
  pose proof (Hrange (bytes !!! (4 * i)%nat)) as H0.
  pose proof (Hrange (bytes !!! (4 * i + 1)%nat)) as H1.
  pose proof (Hrange (bytes !!! (4 * i + 2)%nat)) as H2.
  pose proof (Hrange (bytes !!! (4 * i + 3)%nat)) as H3.
  destruct (le_word_bits _ _ _ _ H0 H1 H2 H3 (Z.of_nat k) (byte_val b))
    as [Hbits Hsign].
  - subst b. destruct k as [|[|[|[|k]]]]; [| | |lia|lia].
    + left. split; [reflexivity|]. by rewrite Nat.add_0_r.
    + right. left. split; reflexivity.
    + right. right. left. split; reflexivity.
  - split; [exact Hbits|]. intros ->. apply Hsign. reflexivity.
Qed.

Lemma s32le_raw_app_short (tail : list byte) :
  (length tail < 4)%nat ->
  forall n bytes, length bytes = (4 * n)%nat -> s32le_raw (bytes ++ tail) = s32le_raw bytes.
Proof.
  intros Htail. induction n as [|n IH]; intros bytes Hlen.
  - destruct bytes; [|done]. cbn [app]. by rewrite !s32le_raw_short by (cbn; lia).
  - destruct bytes as [|b0 [|b1 [|b2 [|b3 rest]]]]; cbn [length] in Hlen; try lia.
    cbn [app]. rewrite !s32le_raw_cons4. f_equal. apply IH. lia.
Qed.

(** X2: the bytes after the last whole word of a file are ignored: up to
    three trailing bytes change nothing in the buffer. *)
Theorem X2_trailing_bytes_ignored (bytes tail : list byte) :
  (length bytes mod 4 = 0)%nat ->
  (length tail < 4)%nat ->
  s32le_open (mapped (bytes ++ tail)) = s32le_open (mapped bytes).
Proof.
  intros Hbytes Htail. cbn [s32le_open]. f_equal.
  apply (s32le_raw_app_short tail Htail (length bytes / 4)).
  pose proof (Nat.div_mod_eq (length bytes) 4). lia.
Qed.

Lemma X2_trailing_bytes_ignored_witness :
  s32le_open (mapped ([x01; x02; x03; x04; x05; x06; x07; x08] ++ [xff; xfe; xfd]))
  = s32le_open (mapped [x01; x02; x03; x04; x05; x06; x07; x08]).
Proof.
  apply X2_trailing_bytes_ignored.
  - reflexivity.
  - vm_compute. lia.
Defined.

Lemma s32le_raw_word_bytes (z : Z) (rest : list byte) :
  in_int32 z -> s32le_raw (word_bytes z ++ rest) = z :: s32le_raw rest.
Proof.
  intros Hz. unfold word_bytes. cbn [app]. rewrite s32le_raw_cons4.
  rewrite !byte_val_of_Z. f_equal. by apply word_of_bytes.
Qed.

Lemma s32le_raw_bytes (data : list Z) :
  Forall in_int32 data -> s32le_raw (concat (word_bytes <$> data)) = data.
Proof.
  induction 1 as [|z data Hz _ IH]; [done|].
  cbn [fmap list_fmap concat]. rewrite s32le_raw_word_bytes by done. by rewrite IH.
Qed.

Lemma length_file_bytes (f : out_file) :
  length (file_bytes f) = (4 * length (f_data f))%nat.
Proof.
  unfold file_bytes. induction (f_data f) as [|z data IH]; [done|].
  cbn [fmap list_fmap concat length]. rewrite length_app, IH. cbn [word_bytes length]. lia.
Qed.

(** X3: an output file is in the input format: it has four bytes per
    sample, and mapping it back gives the samples of the record. *)
Theorem X3_record_reads_back (f : out_file) :
  Forall in_int32 (f_data f) ->
  length (file_bytes f) = (4 * length (f_data f))%nat
  /\ s32le_open (mapped (file_bytes f)) = inr (f_data f).
Proof.
  intros Hdata. split; [apply length_file_bytes|].
  cbn [s32le_open]. f_equal. by apply s32le_raw_bytes.
Qed.

Lemma X3_record_reads_back_witness :
  s32le_open (mapped (file_bytes
    {| f_dir := dir_silence; f_src := "output-silence.raw"; f_chunk_i := 288000;
       f_data := [1; -1; 2147483647; -2147483648] |}))
  = inr [1; -1; 2147483647; -2147483648].
Proof.
  refine (proj2 (X3_record_reads_back
    {| f_dir := dir_silence; f_src := "output-silence.raw"; f_chunk_i := 288000;
       f_data := [1; -1; 2147483647; -2147483648] |} _)).
  apply (bool_decide_unpack _). vm_compute. exact I.
Defined.

(** ** When processing a file aborts *)

Lemma process_cases {T : Type} `{base_output T} (out : T) (raw : list Z) (w : world) :
  process_raw_audio_file out raw w
  = if len raw <=? data_scan_i then Fatal "input file is too short" w
    else match calibrate raw with
         | Some thr =>
             Done (fst (foldl (submit out raw thr 409) (0, w)
                          (offsets_from data_scan_i (n_chunks raw))))
                  (snd (foldl (submit out raw thr 409) (0, w)
                          (offsets_from data_scan_i (n_chunks raw))))
         | None => Undefined
         end.
Proof.
  destruct (Z.leb_spec (len raw) data_scan_i) as [Hshort|Hlong].
  - unfold process_raw_audio_file.
    rewrite secs2offs_skip, secs2offs_training. cbn [bind_undef].
    replace (silence_scan_i + (data_scan_i - silence_scan_i)) with data_scan_i by lia.
    destruct (Z.leb_spec (len raw) data_scan_i); [|lia]. by rewrite orb_true_r.
  - unfold calibrate.
    destruct (silence_max raw silence_scan_i data_scan_i) as [m|] eqn:Hmax.
    + destruct (silence_threshold m) as [thr|] eqn:Hthr.
      * by apply (process_done out raw thr w m).
      * unfold process_raw_audio_file.
        rewrite secs2offs_skip, secs2offs_training. cbn [bind_undef].
        replace (silence_scan_i + (data_scan_i - silence_scan_i)) with data_scan_i by lia.
        unfold silence_scan_i, data_scan_i in *.
        destruct (Z.leb_spec (len raw) 96000); [lia|].
        destruct (Z.leb_spec (len raw) 288000); [lia|]. cbn [orb].
        rewrite Hmax. cbn [bind_undef]. by rewrite Hthr.
    + rewrite silence_max_peak in Hmax by done. discriminate.
Qed.

(** X4: processing a recording is fatal exactly when its file cannot be
    opened, examined or mapped, or when the file has fewer than 1152004
    bytes, which is at most [data_scan_i] whole samples; and [fatal] is then
    called in the world the processing started in: no draw has been made and
    no record written.  (The world accepts every write of [save_to_file].) *)
Theorem X4_file_fatal_iff {T : Type} `{base_output T} (fs : string -> file_view)
    (out : T) (w : world) :
  ((exists msg w', process_file fs out w = Fatal msg w')
   <-> match fs (srcpath out) with
       | mapped bytes => Z.of_nat (length bytes) < 1152004
       | _ => True
       end)
  /\ (forall msg w', process_file fs out w = Fatal msg w' -> w' = w).
Proof.
  unfold process_file. destruct (fs (srcpath out)) as [| | |bytes]; cbn [s32le_open];
    try (split; [split; [done|intros _; eauto]|intros msg w' [= _ <-]; done]).
  rewrite process_cases.
  assert (len (s32le_raw bytes) <= data_scan_i <-> Z.of_nat (length bytes) < 1152004) as Hlen.
  { rewrite s32le_raw_length. unfold data_scan_i.
    Z.to_euclidean_division_equations. lia. }
  destruct (Z.leb_spec (len (s32le_raw bytes)) data_scan_i) as [Hshort|Hlong].
  - split; [split; [intros _; by apply Hlen|intros _; eauto]|].
    intros msg w' [= _ <-]. done.
  - split; [split|].
    + intros (msg & w' & Hfatal). destruct (calibrate _); discriminate.
    + intros Hb. apply Hlen in Hb. lia.
    + intros msg w' Hfatal. destruct (calibrate _); discriminate.
Qed.

(** ** What a run does with each sink *)

Lemma submit_count {T : Type} `{base_output T} (out : T) (raw : list Z) (thr nthr : Z)
    (l : list Z) (acc : Z * world) :
  fst acc <= fst (foldl (submit out raw thr nthr) acc l) <= fst acc + Z.of_nat (length l).
Proof.
  induction l as [|off l IH] in acc |- *; cbn [foldl length]; [lia|].
  specialize (IH (submit out raw thr nthr acc off)).
  assert (fst acc <= fst (submit out raw thr nthr acc off) <= fst acc + 1) as Hstep.
  { unfold submit. cbn [fst]. destruct (fst (save_chunk _ _ _ _ _)); lia. }
  lia.
Qed.

(** X5: for every sink, a run that returns has a recording longer than
    the calibration window, and the count [num_chunks] it ends with is
    between 0 and the number of whole chunks after the window: the counted
    chunks fit between [data_scan_i] and the end of the buffer. *)
Theorem X5_num_chunks_bounds {T : Type} `{base_output T} (out : T) (raw : list Z)
    (w w' : world) (n : Z) :
  process_raw_audio_file out raw w = Done n w' ->
  data_scan_i < len raw
  /\ 0 <= n <= (len raw - data_scan_i) / chunk_len
  /\ n * chunk_len <= len raw - data_scan_i.
Proof.
  rewrite process_cases. destruct (Z.leb_spec (len raw) data_scan_i) as [|Hlen]; [done|].
  destruct (calibrate raw) as [thr|]; [|done]. intros [= <- _].
  pose proof (submit_count out raw thr 409 (offsets_from data_scan_i (n_chunks raw)) (0, w))
    as Hcount.
  cbn [fst] in Hcount.
  assert (length (offsets_from data_scan_i (n_chunks raw)) = n_chunks raw) as Hl
    by (unfold offsets_from; by rewrite length_fmap, length_seq).
  rewrite Hl in Hcount.
  set (n := fst (foldl (submit out raw thr 409) (0, w)
                   (offsets_from data_scan_i (n_chunks raw)))) in *.
  pose proof (n_chunks_bounds raw Hlen) as Hb.
  assert (Z.of_nat (n_chunks raw) = (len raw - data_scan_i) / chunk_len) as Hn.
  { unfold n_chunks. rewrite Z2Nat.id; [done|].
    rewrite chunk_len_eq. apply Z.div_pos; lia. }
  assert (0 < chunk_len) by (rewrite chunk_len_eq; lia).
  split; [done|]. split; [lia|]. nia.
Qed.

Lemma X5_num_chunks_bounds_witness :
  data_scan_i < len recording_quiet
  /\ 0 <= 1 <= (len recording_quiet - data_scan_i) / chunk_len
  /\ 1 * chunk_len <= len recording_quiet - data_scan_i.
Proof.
  apply (X5_num_chunks_bounds {| silence_srcpath := "output-silence.raw" |}
           recording_quiet world_keep_all
           (advance 1 [silence_file {| silence_srcpath := "output-silence.raw" |}
                         recording_quiet 288000] world_keep_all) 1).
  vm_compute. reflexivity.
Defined.

Lemma chunk_at_length raw off :
  data_scan_i <= off -> off + chunk_len <= len raw ->
  length (chunk_at raw off) = OUT_DATASET_NWORDS.
Proof.
  intros Hlo Hhi. unfold chunk_at. unfold data_scan_i in Hlo.
  assert (0 < chunk_len) by (rewrite chunk_len_eq; lia).
  rewrite range_length by lia. rewrite chunk_len_words. lia.
Qed.

Lemma offsets_from_snoc start n :
  offsets_from start (S n) = offsets_from start n ++ [start + Z.of_nat n * chunk_len].
Proof. unfold offsets_from. by rewrite seq_S, fmap_app. Qed.

Lemma silence_fold (out : silence_output) (raw : list Z) (thr nthr : Z) (w : world)
    (start : Z) (n : nat) :
  foldl (submit out raw thr nthr) (0, w) (offsets_from start n)
  = (Z.of_nat n,
     advance n
       (omap (fun k => attempt w k
                {| f_dir := dir_silence; f_src := silence_srcpath out;
                   f_chunk_i := start + Z.of_nat k * chunk_len;
                   f_data := take OUT_DATASET_NWORDS
                               (chunk_at raw (start + Z.of_nat k * chunk_len)) |})
             (seq 0 n)) w).
Proof.
  induction n as [|n IH]; [by rewrite advance_0|].
  rewrite offsets_from_snoc, foldl_app, IH. cbn [foldl].
  unfold submit. cbn [fst snd save_chunk silence_base_output silence_save_chunk].
  rewrite save_to_file_advance. f_equal; [lia|].
  rewrite seq_S, omap_app. cbn [omap list_omap].
  unfold attempt at 1. rewrite draw_advance. unfold advance. cbn.
  rewrite Nat.add_0_r, <- app_assoc.
  replace (rand_pos w + n + 1)%nat with (rand_pos w + S n)%nat by lia.
  done.
Qed.

Lemma process_silence (out : silence_output) (raw : list Z) (w : world) (thr : Z) :
  data_scan_i < len raw ->
  calibrate raw = Some thr ->
  process_raw_audio_file out raw w
  = Done (Z.of_nat (n_chunks raw))
      (advance (n_chunks raw) (silence_records out raw w) w).
Proof.
  unfold silence_records.
  intros Hlen Hcal. rewrite process_cases, Hcal.
  destruct (Z.leb_spec (len raw) data_scan_i); [lia|].
  rewrite silence_fold. cbn [fst snd]. f_equal.
  apply (f_equal2 (advance (n_chunks raw))); [|reflexivity].
  apply list_omap_ext, Forall2_same_length_lookup_2; [reflexivity|].
  intros i k k' Hk Hk'. rewrite Hk in Hk'. injection Hk' as <-.
  apply lookup_seq in Hk as [-> Hi]. cbn [Nat.add].
  unfold silence_file. rewrite take_ge; [reflexivity|].
  assert (data_scan_i + Z.of_nat i * chunk_len ∈ offsets_from data_scan_i (n_chunks raw))
    as Hin by (apply list_elem_of_lookup; exists i; by apply offsets_from_lookup).
  destruct (chunk_in_bounds raw _ Hlen Hin) as [Hlo Hhi].
  by rewrite chunk_at_length.
Qed.

Lemma advance_advance a b fa fb w :
  advance a fa (advance b fb w) = advance (b + a) (fb ++ fa) w.
Proof. unfold advance. cbn. by rewrite Nat.add_assoc, app_assoc. Qed.

Lemma variant_block_advance out raw w fs j off :
  variant_block out raw (advance NCHANNELS fs w) j off = variant_block out raw w (S j) off.
Proof.
  unfold variant_block. apply list_omap_ext, Forall2_same_length_lookup_2; [reflexivity|].
  intros i r r' Hr Hr'. rewrite Hr in Hr'. injection Hr' as <-.
  unfold attempt. rewrite draw_advance.
  replace (NCHANNELS + (NCHANNELS * j + r))%nat with (NCHANNELS * S j + r)%nat by lia.
  reflexivity.
Qed.

Lemma dataset_fold (out : dataset_output) (raw : list Z) (thr : Z) (l : list Z) :
  forall num w,
    foldl (submit out raw thr 409) (num, w) l
    = (num + Z.of_nat (length (filter (fun off => is_silence thr 409 (chunk_at raw off) = false) l)),
       advance (NCHANNELS * length (filter (fun off => is_silence thr 409 (chunk_at raw off) = false) l))
         (mjoin (imap (variant_block out raw w)
                   (filter (fun off => is_silence thr 409 (chunk_at raw off) = false) l)))
         w).
Proof.
  induction l as [|off l IH]; intros num w.
  - cbn. rewrite Nat.mul_0_r, advance_0. f_equal. lia.
  - cbn [foldl]. rewrite filter_cons. unfold submit at 2. cbn [fst snd].
    fold (chunk_at raw off).
    destruct (is_silence thr 409 (chunk_at raw off)) eqn:Hsil.
    + rewrite decide_False by done.
      cbn [save_chunk dataset_base_output dataset_save_chunk fst snd]. apply IH.
    + rewrite decide_True by done.
      cbn [save_chunk dataset_base_output]. rewrite dataset_save_signal. cbn [fst snd].
      rewrite IH, advance_advance. cbn [length]. f_equal; [lia|].
      rewrite imap_cons. cbn [mjoin list_join].
      replace (NCHANNELS * S (length (filter (fun off => is_silence thr 409 (chunk_at raw off) = false) l)))%nat
        with (NCHANNELS + NCHANNELS * length (filter (fun off => is_silence thr 409 (chunk_at raw off) = false) l))%nat
        by lia.
      apply (f_equal2 (advance _)); [|reflexivity]. apply (f_equal2 app).
      * unfold variant_block. apply list_omap_ext, Forall2_same_length_lookup_2; [reflexivity|].
        intros i r r' Hr Hr'. rewrite Hr in Hr'. injection Hr' as <-.
        replace (NCHANNELS * 0 + r)%nat with r by lia. reflexivity.
      * apply (f_equal mjoin). apply imap_ext. intros j off' _. apply variant_block_advance.
Qed.

Lemma process_dataset (out : dataset_output) (raw : list Z) (w : world) (thr : Z) :
  data_scan_i < len raw ->
  calibrate raw = Some thr ->
  process_raw_audio_file out raw w
  = Done (Z.of_nat (length (signal_offsets raw thr)))
      (advance (NCHANNELS * length (signal_offsets raw thr))
         (variant_records out raw thr w) w).
Proof.
  intros Hlen Hcal. rewrite process_cases, Hcal.
  destruct (Z.leb_spec (len raw) data_scan_i); [lia|].
  rewrite dataset_fold. reflexivity.
Qed.

Lemma attempt_Some w k f g : attempt w k f = Some g <-> OUT_DROP_PERCENT <= draw w k /\ g = f.
Proof.
  unfold attempt. destruct (Z.ltb_spec (draw w k) OUT_DROP_PERCENT).
  - split; [done|]. intros [? _]. lia.
  - split; [intros [= <-]; done|]. by intros [_ ->].
Qed.

(** X6: a run with the Silence sink counts every whole chunk after the
    calibration window, whatever its classification and the threshold; it
    makes exactly one draw per chunk, and its records are, in order, the
    unchanged samples of the [k]-th chunk in the silence directory for every
    [k] whose draw is at least [OUT_DROP_PERCENT]. *)
Theorem X6_silence_run (out : silence_output) (raw : list Z) (w : world) (thr : Z) :
  data_scan_i < len raw ->
  calibrate raw = Some thr ->
  process_raw_audio_file out raw w
  = Done (Z.of_nat (n_chunks raw))
      (advance (n_chunks raw) (silence_records out raw w) w)
  /\ (forall f, f ∈ silence_records out raw w <->
        exists k, (k < n_chunks raw)%nat /\ OUT_DROP_PERCENT <= draw w k
                  /\ f = silence_file out raw (data_scan_i + Z.of_nat k * chunk_len)).
Proof.
  intros Hlen Hcal. split; [by apply (process_silence out raw w thr)|].
  intros f. unfold silence_records. rewrite list_elem_of_omap. split.
  - intros (k & Hk & Hf). apply elem_of_seq in Hk. apply attempt_Some in Hf as [Hd ->].
    exists k. split; [lia|done].
  - intros (k & Hk & Hd & ->). exists k. split; [apply elem_of_seq; lia|].
    by apply attempt_Some.
Qed.

Lemma X6_silence_run_witness :
  process_raw_audio_file {| silence_srcpath := "output-silence.raw" |}
    recording_quiet world_keep_all
  = Done (Z.of_nat (n_chunks recording_quiet))
      (advance (n_chunks recording_quiet)
         (silence_records {| silence_srcpath := "output-silence.raw" |}
            recording_quiet world_keep_all) world_keep_all).
Proof.
  refine (proj1 (X6_silence_run {| silence_srcpath := "output-silence.raw" |}
                   recording_quiet world_keep_all 0 _ _)).
  - vm_compute. reflexivity.
  - vm_compute. reflexivity.
Defined.

Lemma variant_block_elem out raw w j off f :
  f ∈ variant_block out raw w j off <->
  exists r, (r < NCHANNELS)%nat /\ OUT_DROP_PERCENT <= draw w (NCHANNELS * j + r)
            /\ f = variant_file out (chunk_at raw off) off r.
Proof.
  unfold variant_block. rewrite list_elem_of_omap. split.
  - intros (r & Hr & Hf). apply elem_of_seq in Hr. apply attempt_Some in Hf as [Hd ->].
    exists r. split; [lia|done].
  - intros (r & Hr & Hd & ->). exists r. split; [apply elem_of_seq; lia|].
    by apply attempt_Some.
Qed.

(** X7: a run with the Directional sink counts exactly the chunks with
    fewer than 409 samples at or above the threshold; it makes [NCHANNELS]
    draws for each of them and none for the other chunks, and its records
    are the variants [r] of the [j]-th such chunk for which the draw number
    [NCHANNELS * j + r] is at least [OUT_DROP_PERCENT]. *)
Theorem X7_dataset_run (out : dataset_output) (raw : list Z) (w : world) (thr : Z) :
  data_scan_i < len raw ->
  calibrate raw = Some thr ->
  process_raw_audio_file out raw w
  = Done (Z.of_nat (length (signal_offsets raw thr)))
      (advance (NCHANNELS * length (signal_offsets raw thr))
         (variant_records out raw thr w) w)
  /\ (forall f, f ∈ variant_records out raw thr w <->
        exists j off r,
          signal_offsets raw thr !! j = Some off /\ (r < NCHANNELS)%nat
          /\ OUT_DROP_PERCENT <= draw w (NCHANNELS * j + r)
          /\ f = variant_file out (chunk_at raw off) off r)
  /\ (forall off, off ∈ signal_offsets raw thr <->
        off ∈ offsets_from data_scan_i (n_chunks raw)
        /\ nvals thr (chunk_at raw off) < 409).
Proof.
  intros Hlen Hcal. split; [by apply (process_dataset out raw w thr)|]. split.
  - intros f. unfold variant_records. rewrite list_elem_of_join. split.
    + intros (blk & Hf & Hblk). apply elem_of_lookup_imap in Hblk as (j & off & -> & Hoff).
      apply variant_block_elem in Hf as (r & Hr & Hd & ->). by exists j, off, r.
    + intros (j & off & r & Hoff & Hr & Hd & ->).
      exists (variant_block out raw w j off). split.
      * apply variant_block_elem. by exists r.
      * apply elem_of_lookup_imap. by exists j, off.
  - intros off. unfold signal_offsets. rewrite list_elem_of_filter. unfold is_silence.
    destruct (Z.leb_spec 409 (nvals thr (chunk_at raw off))); split; intros [? ?]; split;
      try done; lia.
Qed.

Lemma X7_dataset_run_witness :
  process_raw_audio_file sample_dataset
    recording_signal world_keep_all
  = Done (Z.of_nat (length (signal_offsets recording_signal 1100)))
      (advance (NCHANNELS * length (signal_offsets recording_signal 1100))
         (variant_records sample_dataset
            recording_signal 1100 world_keep_all) world_keep_all).
Proof.
  refine (proj1 (X7_dataset_run sample_dataset
                   recording_signal world_keep_all 1100 _ _)).
  - vm_compute. reflexivity.
  - vm_compute. reflexivity.
Defined.

Lemma attempt_paths_NoDup (w : world) (base : nat) (mk : nat -> out_file) (l : list nat) :
  (forall a b, a ∈ l -> b ∈ l -> file_path (mk a) = file_path (mk b) -> a = b) ->
  NoDup l ->
  NoDup (file_path <$> omap (fun k => attempt w (base + k) (mk k)) l).
Proof.
  induction l as [|a l IH]; intros Hinj Hnd; [constructor|].
  apply NoDup_cons in Hnd as [Ha Hnd]. cbn [omap list_omap].
  assert (NoDup (file_path <$> omap (fun k => attempt w (base + k) (mk k)) l)) as IH'.
  { apply IH; [|done]. intros x y Hx Hy. apply Hinj; by apply list_elem_of_further. }
  unfold attempt at 1. destruct (draw w (base + a) <? OUT_DROP_PERCENT); [exact IH'|].
  cbn [fmap list_fmap]. apply NoDup_cons. split; [|exact IH'].
  intros (g & Hkey & Hg)%list_elem_of_fmap.
  apply list_elem_of_omap in Hg as (b & Hb & Hg). apply attempt_Some in Hg as [_ ->].
  assert (a = b) as -> by (apply Hinj; [apply list_elem_of_here|by apply list_elem_of_further|done]).
  done.
Qed.

Lemma offsets_from_NoDup start n : NoDup (offsets_from start n).
Proof.
  unfold offsets_from. apply NoDup_fmap_2_strong; [|apply NoDup_seq].
  intros a b _ _ Hab. rewrite chunk_len_eq in Hab. lia.
Qed.

Lemma blocks_paths_NoDup (g : nat -> Z -> list out_file) (l : list Z) :
  (forall j off f, f ∈ g j off -> f_chunk_i f = off) ->
  (forall j off, NoDup (file_path <$> g j off)) ->
  NoDup l ->
  NoDup (file_path <$> mjoin (imap g l)).
Proof.
  revert g. induction l as [|off l IH]; intros g Hoff Hblk Hnd; [constructor|].
  apply NoDup_cons in Hnd as [Hnotin Hnd].
  rewrite imap_cons. cbn [mjoin list_join]. rewrite fmap_app. apply NoDup_app.
  split; [apply Hblk|]. split.
  - intros key (f & -> & Hf)%list_elem_of_fmap (f' & Hkey & Hf')%list_elem_of_fmap.
    apply list_elem_of_join in Hf' as (blk & Hf' & Hin).
    apply elem_of_lookup_imap in Hin as (j & off' & -> & Hl).
    apply Hoff in Hf. apply Hoff in Hf'.
    unfold file_path in Hkey. injection Hkey as _ _ Hkey.
    apply Hnotin. rewrite <- Hf, Hkey, Hf'. apply list_elem_of_lookup. by exists j.
  - apply IH; [|intros; apply Hblk|done]. intros j off' f. apply Hoff.
Qed.

Lemma silence_records_paths (out : silence_output) (raw : list Z) (w : world) :
  NoDup (file_path <$> silence_records out raw w).
Proof.
  unfold silence_records.
  apply (attempt_paths_NoDup w 0
           (fun k => silence_file out raw (data_scan_i + Z.of_nat k * chunk_len)));
    [|apply NoDup_seq].
  intros a b _ _ Hkey. unfold file_path, silence_file in Hkey. cbn in Hkey.
  injection Hkey as Hkey. rewrite chunk_len_eq in Hkey. lia.
Qed.

Lemma variant_records_paths (out : dataset_output) (raw : list Z) (thr : Z) (w : world) :
  (forall a b, (a < NCHANNELS)%nat -> (b < NCHANNELS)%nat ->
     angle_dirs out !!! a = angle_dirs out !!! b -> a = b) ->
  NoDup (file_path <$> variant_records out raw thr w).
Proof.
  intros Hdirs. unfold variant_records. apply blocks_paths_NoDup.
  - intros j off f (r & _ & _ & ->)%variant_block_elem. reflexivity.
  - intros j off. unfold variant_block.
    apply (attempt_paths_NoDup w (NCHANNELS * j)
             (fun r => variant_file out (chunk_at raw off) off r)); [|apply NoDup_seq].
    intros a b Ha%elem_of_seq Hb%elem_of_seq Hkey.
    unfold file_path, variant_file in Hkey. cbn in Hkey.
    injection Hkey as Hkey. apply Hdirs; [lia|lia|exact Hkey].
  - unfold signal_offsets. apply NoDup_filter, offsets_from_NoDup.
Qed.

Lemma process_Done_inv {T} `{base_output T} (out : T) (raw : list Z) (w w' : world) (n : Z) :
  process_raw_audio_file out raw w = Done n w' ->
  data_scan_i < len raw /\ exists thr, calibrate raw = Some thr.
Proof.
  rewrite process_cases. destruct (Z.leb_spec (len raw) data_scan_i); [done|].
  destruct (calibrate raw) as [thr|]; [|done]. intros _. split; [done|by exists thr].
Qed.

(** X8: a run with the Silence sink writes no output file twice: its
    records differ pairwise in the chunk offset that ends the file name.  A
    run with the Directional sink writes no output file twice when the
    eight directories [angle_dirs] of the recording are pairwise
    different. *)
Theorem X8_no_record_twice (s : silence_output) (d : dataset_output) (raw : list Z)
    (w : world) :
  (forall n w', process_raw_audio_file s raw w = Done n w' ->
     exists new, disk w' = disk w ++ new /\ NoDup (file_path <$> new))
  /\ ((forall a b, (a < NCHANNELS)%nat -> (b < NCHANNELS)%nat ->
         angle_dirs d !!! a = angle_dirs d !!! b -> a = b) ->
      forall n w', process_raw_audio_file d raw w = Done n w' ->
        exists new, disk w' = disk w ++ new /\ NoDup (file_path <$> new)).
Proof.
  split; [|intros Hdirs]; intros n w' Hrun;
    destruct (process_Done_inv _ raw w w' n Hrun) as (Hlen & thr & Hcal).
  - rewrite (process_silence s raw w thr Hlen Hcal) in Hrun. injection Hrun as _ <-.
    exists (silence_records s raw w). split; [reflexivity|apply silence_records_paths].
  - rewrite (process_dataset d raw w thr Hlen Hcal) in Hrun. injection Hrun as _ <-.
    exists (variant_records d raw thr w).
    split; [reflexivity|by apply variant_records_paths].
Qed.

Lemma NoDup_fmap_inj {A B : Type} (f : A -> B) (l : list A) (x y : A) :
  NoDup (f <$> l) -> x ∈ l -> y ∈ l -> f x = f y -> x = y.
Proof.
  induction l as [|a l IH]; intros Hnd Hx Hy Hf; [by apply elem_of_nil in Hx|].
  cbn [fmap list_fmap] in Hnd. apply NoDup_cons in Hnd as [Ha Hnd].
  apply elem_of_cons in Hx as [->|Hx]; apply elem_of_cons in Hy as [->|Hy].
  - reflexivity.
  - exfalso. apply Ha. rewrite Hf. apply list_elem_of_fmap. by exists y.
  - exfalso. apply Ha. rewrite <- Hf. apply list_elem_of_fmap. by exists x.
  - by apply IH.
Qed.

Lemma rotated_angle_1e9 : rotated_angle float_1e9 1 = rotated_angle float_1e9 2.
Proof. vm_compute. reflexivity. Qed.

(** X19: the eight directories need not differ.  For a recording whose
    file name gives the sub-angle 1e9, the angles of the rotation offsets 1
    and 2 are the same [float], whatever [sprintf] prints for it: the
    constructor stores the same directory twice, and when the draws keep
    both variants of a chunk the second is written to the path of the
    first. *)
Theorem X19_directories_collide (e : env) (path : string) (d : dataset_output)
    (arr : list Z) (chunk_i : Z) (w : world) :
  sc_subangle (sscanf e path) = float_1e9 ->
  new_dataset_output e path = ctor_ok d ->
  OUT_DROP_PERCENT <= draw w 1 -> OUT_DROP_PERCENT <= draw w 2 ->
  rotated_angle float_1e9 1 = rotated_angle float_1e9 2
  /\ angle_dirs d !!! 1%nat = angle_dirs d !!! 2%nat
  /\ exists new,
       save_chunk d arr chunk_i false w = (true, advance NCHANNELS new w)
       /\ variant_file d arr chunk_i 1 ∈ new
       /\ variant_file d arr chunk_i 2 ∈ new
       /\ file_path (variant_file d arr chunk_i 1) = file_path (variant_file d arr chunk_i 2)
       /\ ~ NoDup (file_path <$> new).
Proof.
  intros Hangle Hctor Hd1 Hd2.
  assert (NCHANNELS = 8%nat) as HN by reflexivity.
  assert (angle_dirs d !!! 1%nat = angle_dirs d !!! 2%nat) as Hdirs.
  { unfold new_dataset_output in Hctor.
    destruct (sc_n (sscanf e path) =? 3); [|discriminate Hctor].
    destruct (mapM (angle_dir e (sscanf e path)) (seq 0 NCHANNELS)) as [dirs|] eqn:Hmap;
      [|discriminate Hctor].
    injection Hctor as <-. cbn [angle_dirs].
    apply mapM_Some_1 in Hmap.
    destruct (Forall2_lookup_l _ _ _ 1%nat 1%nat Hmap) as (y1 & Hy1 & Hf1);
      [apply (lookup_seq_lt 0); lia|].
    destruct (Forall2_lookup_l _ _ _ 2%nat 2%nat Hmap) as (y2 & Hy2 & Hf2);
      [apply (lookup_seq_lt 0); lia|].
    rewrite (list_lookup_total_correct _ _ _ Hy1), (list_lookup_total_correct _ _ _ Hy2).
    unfold angle_dir in Hf1, Hf2. rewrite Hangle in Hf1, Hf2.
    rewrite rotated_angle_1e9 in Hf1. rewrite Hf1 in Hf2. by injection Hf2. }
  split; [apply rotated_angle_1e9|]. split; [exact Hdirs|].
  exists (variant_file d arr chunk_i
            <$> filter (fun r => OUT_DROP_PERCENT <= draw w r) (seq 0 NCHANNELS)).
  assert (forall r, (r < NCHANNELS)%nat -> OUT_DROP_PERCENT <= draw w r ->
            variant_file d arr chunk_i r
            ∈ variant_file d arr chunk_i
                <$> filter (fun r => OUT_DROP_PERCENT <= draw w r) (seq 0 NCHANNELS)) as Hin.
  { intros r Hr Hd. apply list_elem_of_fmap. exists r. split; [reflexivity|].
    apply list_elem_of_filter. split; [exact Hd|]. apply elem_of_seq. lia. }
  assert (file_path (variant_file d arr chunk_i 1) = file_path (variant_file d arr chunk_i 2))
    as Hpath.
  { unfold file_path, variant_file. cbn [f_dir f_src f_chunk_i]. by rewrite Hdirs. }
  split.
  { cbn [save_chunk dataset_base_output]. rewrite dataset_save_signal, attempts_filter.
    reflexivity. }
  split; [apply Hin; [lia|exact Hd1]|].
  split; [apply Hin; [lia|exact Hd2]|].
  split; [exact Hpath|].
  rewrite <- list_fmap_compose. intros Hnd.
  assert (1%nat = 2%nat) as Habsurd; [|discriminate Habsurd].
  apply (NoDup_fmap_inj _ _ 1%nat 2%nat Hnd).
  - apply list_elem_of_filter. split; [exact Hd1|]. apply elem_of_seq. lia.
  - apply list_elem_of_filter. split; [exact Hd2|]. apply elem_of_seq. lia.
  - exact Hpath.
Qed.

Lemma X19_directories_collide_witness :
  new_dataset_output (sample_env [] [] "") "rec/output-1e9deg-0elev-1.0m.raw"
  = ctor_ok sample_dataset_1e9
  /\ exists new,
       save_chunk sample_dataset_1e9 tone_chunk 288000 false world_keep_all
       = (true, advance NCHANNELS new world_keep_all)
       /\ ~ NoDup (file_path <$> new).
Proof.
  assert (new_dataset_output (sample_env [] [] "") "rec/output-1e9deg-0elev-1.0m.raw"
          = ctor_ok sample_dataset_1e9) as Hctor by (vm_compute; reflexivity).
  split; [exact Hctor|].
  destruct (X19_directories_collide (sample_env [] [] "")
              "rec/output-1e9deg-0elev-1.0m.raw" sample_dataset_1e9 tone_chunk 288000
              world_keep_all) as (_ & _ & new & Hsave & _ & _ & _ & Hdup).
  - reflexivity.
  - exact Hctor.
  - vm_compute. discriminate.
  - vm_compute. discriminate.
  - exists new. split; [exact Hsave|exact Hdup].
Defined.

(** ** Frames *)

(** X9: every offset [secs2offs] returns is a multiple of [NCHANNELS],
    and so is the offset of every chunk; sample [i] of a chunk is the sample
    [off + i] of the buffer, and both have the same channel index modulo
    [NCHANNELS]: the frames of a chunk are frames of the recording. *)
Theorem X9_chunks_frame_aligned (raw : list Z) (off : Z) (i : nat) :
  data_scan_i < len raw ->
  off ∈ offsets_from data_scan_i (n_chunks raw) ->
  (i < OUT_DATASET_NWORDS)%nat ->
  (forall nsecs o, secs2offs nsecs = Some o -> o mod Z.of_nat NCHANNELS = 0)
  /\ off mod Z.of_nat NCHANNELS = 0
  /\ chunk_at raw off !! i = raw !! (Z.to_nat off + i)%nat
  /\ ((Z.to_nat off + i) mod NCHANNELS = i mod NCHANNELS)%nat.
Proof.
  intros Hlen Hoff Hi.
  assert (Z.of_nat NCHANNELS = 8) as HN by reflexivity.
  split.
  { intros nsecs o. unfold secs2offs.
    destruct (Float.floor _) as [n|]; [|done].
    destruct (in_off_t n && in_off_t (n * Z.of_nat NCHANNELS)); [|done].
    intros [= <-]. apply Z.mod_mul. lia. }
  destruct (chunk_in_bounds raw off Hlen Hoff) as [Hlo Hhi].
  apply offsets_from_elem in Hoff as (k & Hk & ->).
  assert ((data_scan_i + Z.of_nat k * chunk_len) mod Z.of_nat NCHANNELS = 0) as Hal.
  { rewrite HN, chunk_len_eq. unfold data_scan_i. Z.to_euclidean_division_equations. lia. }
  split; [exact Hal|]. split.
  - unfold chunk_at. apply range_lookup; [unfold data_scan_i in *; lia|].
    rewrite chunk_len_words. lia.
  - assert (NCHANNELS = 8%nat) as HN' by reflexivity. rewrite HN' in *.
    rewrite chunk_len_eq in *. unfold data_scan_i in *.
    replace (Z.to_nat (288000 + Z.of_nat k * 4096))
      with (Z.to_nat (36000 + Z.of_nat k * 512) * 8)%nat by lia.
    rewrite Nat.add_comm. apply Nat.Div0.mod_add.
Qed.

Lemma X9_chunks_frame_aligned_witness :
  288000 mod Z.of_nat NCHANNELS = 0
  /\ chunk_at recording_quiet 288000 !! 5%nat = recording_quiet !! (Z.to_nat 288000 + 5)%nat
  /\ ((Z.to_nat 288000 + 5) mod NCHANNELS = 5 mod NCHANNELS)%nat.
Proof.
  refine (proj2 (X9_chunks_frame_aligned recording_quiet 288000 5 _ _ _)).
  - vm_compute. reflexivity.
  - vm_compute. constructor.
  - vm_compute. lia.
Defined.

(** ** The variants determine the chunk *)

Lemma rotated_total r arr k c :
  (k < OUT_NSAMPLES)%nat -> (c < NCHANNELS)%nat ->
  rotate r arr data_uninit !!! (k * NCHANNELS + rot_index r c)%nat
  = arr !!! (k * NCHANNELS + c)%nat.
Proof.
  intros Hk Hc. apply list_lookup_total_correct. unfold rot_index.
  apply rotate_lookup; [apply length_replicate|done|done].
Qed.

Lemma variant_lookup r arr k c :
  (r <= NCHANNELS)%nat -> (k < OUT_NSAMPLES)%nat -> (c < NCHANNELS)%nat ->
  variant r arr !! (k * NCHANNELS + rot_index r c)%nat
  = Some (if decide (rot_index r c = 0%nat) then arr !!! (k * NCHANNELS + c)%nat
          else int32_sub (arr !!! (k * NCHANNELS + c)%nat)
                 (arr !!! (k * NCHANNELS + rot_index (NCHANNELS - r) 0)%nat)).
Proof.
  intros Hr Hk Hc. pose proof NCHANNELS_pos as Hpos. unfold variant.
  rewrite normalize_lookup;
    [|rewrite rotate_length; apply length_replicate|done|apply rot_index_lt].
  assert (rotate r arr data_uninit !!! (k * NCHANNELS)%nat
          = arr !!! (k * NCHANNELS + rot_index (NCHANNELS - r) 0)%nat) as Hbase.
  { rewrite <- (rotated_total r arr k (rot_index (NCHANNELS - r) 0))
      by (done || apply rot_index_lt).
    rewrite rot_index_cancel by lia. by rewrite Nat.add_0_r. }
  rewrite Hbase, rotated_total by done.
  destruct (decide (rot_index r c = 0%nat)) as [H0|H0]; [|reflexivity].
  do 2 f_equal.
  rewrite <- (rot_index_cancel r (NCHANNELS - r) c) at 1 by lia.
  by rewrite H0.
Qed.

Lemma int32_sub_cancel (x y b : Z) :
  in_int32 x -> in_int32 y -> int32_sub x b = int32_sub y b -> x = y.
Proof.
  unfold in_int32, INT32_MIN, INT32_MAX, int32_sub, int32_wrap. intros Hx Hy Heq.
  Z.to_euclidean_division_equations. lia.
Qed.

(** X10: for 32-bit samples the variant of a rotation offset determines
    the chunk: two chunks with the same variant are equal, so the
    subtraction of channel 0 loses nothing, also when it wraps. *)
Theorem X10_variant_injective (a b : list Z) (r : nat) :
  length a = OUT_DATASET_NWORDS -> length b = OUT_DATASET_NWORDS ->
  Forall in_int32 a -> Forall in_int32 b ->
  (r < NCHANNELS)%nat ->
  variant r a = variant r b -> a = b.
Proof.
  intros Ha Hb Hia Hib Hr Hvar. pose proof NCHANNELS_pos as Hpos.
  assert (forall k c, (k < OUT_NSAMPLES)%nat -> (c < NCHANNELS)%nat ->
            (k * NCHANNELS + c < OUT_DATASET_NWORDS)%nat) as Hin.
  { intros k c Hk Hc. rewrite OUT_DATASET_NWORDS_eq. nia. }
  assert (forall k, (k < OUT_NSAMPLES)%nat ->
            a !!! (k * NCHANNELS + rot_index (NCHANNELS - r) 0)%nat
            = b !!! (k * NCHANNELS + rot_index (NCHANNELS - r) 0)%nat) as Hbase.
  { intros k Hk.
    pose proof (variant_lookup r a k (rot_index (NCHANNELS - r) 0) ltac:(lia) Hk
                  (rot_index_lt _ _)) as HA.
    pose proof (variant_lookup r b k (rot_index (NCHANNELS - r) 0) ltac:(lia) Hk
                  (rot_index_lt _ _)) as HB.
    rewrite Hvar, HB in HA. rewrite rot_index_cancel in HA by lia.
    rewrite decide_True in HA by reflexivity. injection HA as HA. symmetry. exact HA. }
  apply list_eq. intros j.
  destruct (Nat.lt_ge_cases j OUT_DATASET_NWORDS) as [Hj|Hj].
  - set (k := (j / NCHANNELS)%nat). set (c := (j mod NCHANNELS)%nat).
    assert (j = (k * NCHANNELS + c)%nat) as Hjk
      by (unfold k, c; pose proof (Nat.div_mod_eq j NCHANNELS); lia).
    assert (c < NCHANNELS)%nat as Hc by (apply Nat.mod_upper_bound; lia).
    assert (k < OUT_NSAMPLES)%nat as Hk.
    { rewrite OUT_DATASET_NWORDS_eq in Hj. nia. }
    rewrite Hjk.
    rewrite !list_lookup_lookup_total_lt by (rewrite ?Ha, ?Hb; by apply Hin).
    f_equal.
    pose proof (variant_lookup r a k c ltac:(lia) Hk Hc) as HA.
    pose proof (variant_lookup r b k c ltac:(lia) Hk Hc) as HB.
    rewrite Hvar, HB in HA. injection HA as HA.
    destruct (decide (rot_index r c = 0%nat)); [symmetry; exact HA|].
    rewrite (Hbase k Hk) in HA. symmetry in HA. revert HA. apply int32_sub_cancel.
    + apply Forall_lookup_total_1; [done|]. rewrite Ha. by apply Hin.
    + apply Forall_lookup_total_1; [done|]. rewrite Hb. by apply Hin.
  - transitivity (@None Z); [|symmetry]; apply lookup_ge_None_2; lia.
Qed.

Lemma X10_variant_injective_witness : tone_chunk = tone_chunk.
Proof.
  apply (X10_variant_injective tone_chunk tone_chunk 3).
  - vm_compute. reflexivity.
  - vm_compute. reflexivity.
  - apply (bool_decide_unpack _). vm_compute. exact I.
  - apply (bool_decide_unpack _). vm_compute. exact I.
  - vm_compute. lia.
  - reflexivity.
Defined.

(** ** The size of the records *)

Lemma whole_record_intro (f : out_file) :
  length (f_data f) = OUT_DATASET_NWORDS -> Forall in_int32 (f_data f) -> whole_record f.
Proof.
  intros Hlen Hin. split; [done|]. split; [done|].
  rewrite length_file_bytes, Hlen. reflexivity.
Qed.

Lemma chunk_at_int32 raw off : Forall in_int32 raw -> Forall in_int32 (chunk_at raw off).
Proof. intros Hraw. unfold chunk_at, range. by apply Forall_take, Forall_drop. Qed.

Lemma variant_int32 r arr :
  (r < NCHANNELS)%nat -> length arr = OUT_DATASET_NWORDS ->
  Forall in_int32 arr -> Forall in_int32 (variant r arr).
Proof.
  intros Hr Harr Hin. pose proof NCHANNELS_pos as Hpos.
  apply Forall_lookup. intros j x Hx.
  assert (j < OUT_DATASET_NWORDS)%nat as Hj.
  { rewrite <- (variant_length r arr). by apply lookup_lt_Some in Hx. }
  set (k := (j / NCHANNELS)%nat). set (c' := (j mod NCHANNELS)%nat).
  assert (j = (k * NCHANNELS + c')%nat) as Hjk
    by (unfold k, c'; pose proof (Nat.div_mod_eq j NCHANNELS); lia).
  assert (c' < NCHANNELS)%nat as Hc' by (apply Nat.mod_upper_bound; lia).
  assert (k < OUT_NSAMPLES)%nat as Hk.
  { rewrite OUT_DATASET_NWORDS_eq in Hj. nia. }
  rewrite Hjk in Hx.
  rewrite <- (rot_index_cancel (NCHANNELS - r) r c' Hc' ltac:(lia)) in Hx.
  rewrite (variant_lookup r arr k (rot_index (NCHANNELS - r) c') ltac:(lia) Hk
             (rot_index_lt _ _)) in Hx.
  injection Hx as <-.
  destruct (decide _); [|apply int32_wrap_range].
  apply Forall_lookup_total_1; [done|]. rewrite Harr, OUT_DATASET_NWORDS_eq.
  pose proof (rot_index_lt (NCHANNELS - r) c'). nia.
Qed.

(** X11: on a buffer of 32-bit samples every record of a run, with either
    sink, holds exactly [OUT_DATASET_NWORDS] samples, each a 32-bit value:
    every output file has 16384 bytes. *)
Theorem X11_record_size (s : silence_output) (d : dataset_output) (raw : list Z)
    (w : world) :
  Forall in_int32 raw ->
  (forall n w', process_raw_audio_file s raw w = Done n w' ->
     exists new, disk w' = disk w ++ new /\ Forall whole_record new)
  /\ (forall n w', process_raw_audio_file d raw w = Done n w' ->
        exists new, disk w' = disk w ++ new /\ Forall whole_record new).
Proof.
  intros Hraw.
  split; intros n w' Hrun;
    destruct (process_Done_inv _ raw w w' n Hrun) as (Hlen & thr & Hcal).
  - rewrite (process_silence s raw w thr Hlen Hcal) in Hrun. injection Hrun as _ <-.
    exists (silence_records s raw w). split; [reflexivity|].
    apply Forall_forall. intros f Hf. unfold silence_records in Hf.
    apply list_elem_of_omap in Hf as (k & Hk & Hf). apply attempt_Some in Hf as [_ ->].
    apply elem_of_seq in Hk.
    assert (data_scan_i + Z.of_nat k * chunk_len ∈ offsets_from data_scan_i (n_chunks raw))
      as Hin by (apply list_elem_of_lookup; exists k; apply offsets_from_lookup; lia).
    destruct (chunk_in_bounds raw _ Hlen Hin) as [Hlo Hhi].
    apply whole_record_intro; cbn [f_data silence_file].
    + by apply chunk_at_length.
    + by apply chunk_at_int32.
  - rewrite (process_dataset d raw w thr Hlen Hcal) in Hrun. injection Hrun as _ <-.
    exists (variant_records d raw thr w). split; [reflexivity|].
    apply Forall_forall. intros f Hf. unfold variant_records in Hf.
    apply list_elem_of_join in Hf as (blk & Hf & Hblk).
    apply elem_of_lookup_imap in Hblk as (j & off & -> & Hoff).
    apply variant_block_elem in Hf as (r & Hr & _ & ->).
    assert (off ∈ offsets_from data_scan_i (n_chunks raw)) as Hin.
    { apply list_elem_of_lookup_2 in Hoff. unfold signal_offsets in Hoff.
      by apply list_elem_of_filter in Hoff as [_ ?]. }
    destruct (chunk_in_bounds raw _ Hlen Hin) as [Hlo Hhi].
    apply whole_record_intro; cbn [f_data variant_file].
    + apply variant_length.
    + apply variant_int32; [done|by apply chunk_at_length|by apply chunk_at_int32].
Qed.

Lemma X11_record_size_witness :
  exists new,
    disk (advance 1 [silence_file {| silence_srcpath := "output-silence.raw" |}
                       recording_quiet 288000] world_keep_all)
    = disk world_keep_all ++ new
    /\ Forall whole_record new.
Proof.
  refine (proj1 (X11_record_size {| silence_srcpath := "output-silence.raw" |}
                   sample_dataset
                   recording_quiet world_keep_all _) 1 _ _).
  - apply (bool_decide_unpack _). vm_compute. exact I.
  - vm_compute. reflexivity.
Defined.

(** ** The classifier and the threshold *)

Lemma nvals_filter thr chunk :
  nvals thr chunk = Z.of_nat (length (filter (fun v => thr <= Z.abs v) chunk)).
Proof.
  unfold nvals. rewrite count_if_filter. do 2 f_equal.
  apply list_filter_iff. intros v. unfold cmp_to_threshold, labs. lia.
Qed.

Lemma nvals_antitone thr1 thr2 chunk :
  thr1 <= thr2 -> nvals thr2 chunk <= nvals thr1 chunk.
Proof.
  intros Hle. unfold nvals. induction chunk as [|v chunk IH]; [done|].
  cbn [count_if]. unfold cmp_to_threshold at 1 3.
  destruct (Z.leb_spec thr2 (labs v)), (Z.leb_spec thr1 (labs v)); lia.
Qed.

Lemma nvals_bounds thr chunk : 0 <= nvals thr chunk <= Z.of_nat (length chunk).
Proof.
  rewrite nvals_filter. split; [lia|]. apply inj_le, length_filter.
Qed.

(** X12: the count of a chunk lies between 0 and its length and does not
    grow when the threshold grows; a chunk that is Silence stays Silence
    under a lower silence threshold and a lower count threshold; and a chunk
    shorter than the count threshold is never Silence. *)
Theorem X12_classifier_monotone (thr1 thr2 n1 n2 : Z) (chunk : list Z) :
  thr1 <= thr2 -> n1 <= n2 ->
  0 <= nvals thr2 chunk <= nvals thr1 chunk
  /\ nvals thr1 chunk <= Z.of_nat (length chunk)
  /\ (is_silence thr2 n2 chunk = true -> is_silence thr1 n1 chunk = true)
  /\ (Z.of_nat (length chunk) < n1 -> is_silence thr1 n1 chunk = false).
Proof.
  intros Hthr Hn. pose proof (nvals_antitone thr1 thr2 chunk Hthr) as Hanti.
  pose proof (nvals_bounds thr2 chunk) as [H0 _].
  pose proof (nvals_bounds thr1 chunk) as [_ Hup].
  split; [lia|]. split; [lia|]. unfold is_silence. split.
  - intros H2%Z.leb_le. apply Z.leb_le. lia.
  - intros Hshort. apply Z.leb_gt. lia.
Qed.

Lemma X12_classifier_monotone_witness :
  0 <= nvals 2 [1; -2; 3; 0] <= nvals 1 [1; -2; 3; 0]
  /\ nvals 1 [1; -2; 3; 0] <= Z.of_nat (length [1; -2; 3; 0])
  /\ (is_silence 2 3 [1; -2; 3; 0] = true -> is_silence 1 2 [1; -2; 3; 0] = true)
  /\ (Z.of_nat (length [1; -2; 3; 0]) < 2 -> is_silence 1 2 [1; -2; 3; 0] = false).
Proof. apply X12_classifier_monotone; lia. Defined.

Lemma round53_near (x : Z) : 0 <= x -> x - 1 <= round53 x <= x + 1.
Proof.
  intros Hx. unfold round53. rewrite !Zeven_mod.
  change (2 ^ 53) with 9007199254740992.
  destruct (Z.ltb_spec x 9007199254740992), (Z.eqb_spec (x mod 2) 0),
    (Z.eqb_spec (x / 2 mod 2) 0); Z.to_euclidean_division_equations; lia.
Qed.

Lemma threshold_of_peak (p : Z) :
  0 <= p <= 1952257819 ->
  exists thr, silence_threshold p = Some thr
    /\ p <= thr
    /\ 8388608 * thr <= 9227469 * p + 1
    /\ 9227469 * p - 1 < 8388608 * (thr + 1)
    /\ (thr = p <-> p <= 9).
Proof.
  intros Hp. exists (round53 (p * 9227469) / 2 ^ 23).
  split; [by apply FloatFacts.silence_threshold_round53|].
  pose proof (round53_near (p * 9227469) ltac:(lia)) as Hnear.
  assert (p <= 9 -> round53 (p * 9227469) = p * 9227469) as Hsmall.
  { intros H9. apply round53_exact. change (2 ^ 53) with 9007199254740992. lia. }
  change (2 ^ 23) with 8388608.
  set (R := round53 (p * 9227469)) in *. clearbody R.
  split; [Z.to_euclidean_division_equations; lia|].
  split; [Z.to_euclidean_division_equations; lia|].
  split; [Z.to_euclidean_division_equations; lia|].
  split.
  - intros Heq. destruct (Z.le_gt_cases p 9); [done|].
    Z.to_euclidean_division_equations. lia.
  - intros H9. rewrite (Hsmall H9) in *. Z.to_euclidean_division_equations. lia.
Qed.

(** X13: for a peak [p] of the calibration window up to 1952257819 the
    threshold [t] is never below the peak, and it is the product
    [p * 9227469 / 2^23] up to the rounding: [2^23 * t <= 9227469 * p + 1]
    and [9227469 * p - 1 < 2^23 * (t + 1)].  It equals the peak exactly for
    the peaks up to 9. *)
Theorem X13_threshold_bounds (raw : list Z) :
  data_scan_i < len raw ->
  peak_abs (range raw silence_scan_i data_scan_i) <= 1952257819 ->
  exists thr, calibrate raw = Some thr
    /\ peak_abs (range raw silence_scan_i data_scan_i) <= thr
    /\ 8388608 * thr <= 9227469 * peak_abs (range raw silence_scan_i data_scan_i) + 1
    /\ 9227469 * peak_abs (range raw silence_scan_i data_scan_i) - 1 < 8388608 * (thr + 1)
    /\ (thr = peak_abs (range raw silence_scan_i data_scan_i)
        <-> peak_abs (range raw silence_scan_i data_scan_i) <= 9).
Proof.
  intros Hlen Hpeak.
  pose proof (peak_abs_nonneg (range raw silence_scan_i data_scan_i)) as Hp0.
  destruct (threshold_of_peak (peak_abs (range raw silence_scan_i data_scan_i)) ltac:(lia))
    as (thr & Hthr & Hbounds).
  exists thr. split; [|exact Hbounds].
  unfold calibrate. rewrite silence_max_peak by done.
  rewrite int32_wrap_id; [exact Hthr|].
  unfold in_int32, INT32_MIN, INT32_MAX. lia.
Qed.

Lemma X13_threshold_bounds_witness :
  exists thr, calibrate (recording_peak 1000) = Some thr
    /\ peak_abs (range (recording_peak 1000) silence_scan_i data_scan_i) <= thr
    /\ 8388608 * thr
       <= 9227469 * peak_abs (range (recording_peak 1000) silence_scan_i data_scan_i) + 1
    /\ 9227469 * peak_abs (range (recording_peak 1000) silence_scan_i data_scan_i) - 1
       < 8388608 * (thr + 1)
    /\ (thr = peak_abs (range (recording_peak 1000) silence_scan_i data_scan_i)
        <-> peak_abs (range (recording_peak 1000) silence_scan_i data_scan_i) <= 9).
Proof.
  apply X13_threshold_bounds.
  - vm_compute. reflexivity.
  - vm_compute. discriminate.
Defined.

Lemma count_if_none (p : Z -> bool) (l : list Z) :
  Forall (fun v => p v = false) l -> count_if p l = 0.
Proof. induction 1 as [|v l Hv _ IH]; [done|]. cbn [count_if]. rewrite Hv, IH. done. Qed.

Lemma length_filter_mono (P Q : Z -> Prop) `{!forall v, Decision (P v)}
    `{!forall v, Decision (Q v)} (l : list Z) :
  (forall v, P v -> Q v) -> (length (filter P l) <= length (filter Q l))%nat.
Proof.
  intros HPQ. induction l as [|v l IH]; [done|]. rewrite !filter_cons.
  destruct (decide (P v)) as [HP|HP].
  - rewrite decide_True by auto. cbn [length]. lia.
  - destruct (decide (Q v)); cbn [length]; lia.
Qed.

(** X14: with a calibration peak from 10 on, a chunk none of whose
    samples exceeds the peak in absolute value has the count 0 and is not
    Silence: it is one of the chunks the Directional sink records.  A chunk
    with at least 409 samples [v] such that [9227469 * peak + 1 <= 2^23 * |v|]
    is Silence and is not recorded by it. *)
Theorem X14_chunk_against_peak (raw : list Z) (off : Z) :
  data_scan_i < len raw ->
  10 <= peak_abs (range raw silence_scan_i data_scan_i) <= 1952257819 ->
  off ∈ offsets_from data_scan_i (n_chunks raw) ->
  exists thr, calibrate raw = Some thr
    /\ (Forall (fun v => Z.abs v <= peak_abs (range raw silence_scan_i data_scan_i))
          (chunk_at raw off) ->
        nvals thr (chunk_at raw off) = 0
        /\ is_silence thr 409 (chunk_at raw off) = false
        /\ off ∈ signal_offsets raw thr)
    /\ (409 <= Z.of_nat (length (filter
                 (fun v => 9227469 * peak_abs (range raw silence_scan_i data_scan_i) + 1
                           <= 8388608 * Z.abs v) (chunk_at raw off))) ->
        is_silence thr 409 (chunk_at raw off) = true
        /\ off ∉ signal_offsets raw thr).
Proof.
  intros Hlen [Hp10 Hpeak] Hoff.
  set (p := peak_abs (range raw silence_scan_i data_scan_i)) in *.
  destruct (threshold_of_peak p ltac:(lia)) as (thr & Hthr & Hle & Hup & Hlo & Heq).
  assert (calibrate raw = Some thr) as Hcal.
  { unfold calibrate. rewrite silence_max_peak by done. fold p.
    rewrite int32_wrap_id; [exact Hthr|].
    unfold in_int32, INT32_MIN, INT32_MAX. lia. }
  assert (p < thr) as Hlt by (destruct (Z.eq_dec thr p); lia).
  exists thr. split; [exact Hcal|]. split.
  - intros Hquiet.
    assert (nvals thr (chunk_at raw off) = 0) as Hn.
    { unfold nvals. apply count_if_none. eapply Forall_impl; [exact Hquiet|].
      intros v Hv. cbn beta in Hv. unfold cmp_to_threshold, labs. apply Z.leb_gt. lia. }
    assert (is_silence thr 409 (chunk_at raw off) = false) as Hsig.
    { unfold is_silence. rewrite Hn. reflexivity. }
    split; [exact Hn|]. split; [exact Hsig|].
    unfold signal_offsets. apply list_elem_of_filter. split; [exact Hsig|exact Hoff].
  - intros Hloud.
    assert (is_silence thr 409 (chunk_at raw off) = true) as Hsil.
    { unfold is_silence. apply Z.leb_le. rewrite nvals_filter.
      etransitivity; [exact Hloud|]. apply inj_le, length_filter_mono.
      intros v Hv. lia. }
    split; [exact Hsil|]. unfold signal_offsets. rewrite list_elem_of_filter.
    intros [Hsig _]. congruence.
Qed.

Lemma X14_chunk_against_peak_witness :
  exists thr, calibrate recording_signal = Some thr
    /\ (Forall (fun v => Z.abs v <= peak_abs (range recording_signal silence_scan_i data_scan_i))
          (chunk_at recording_signal 288000) ->
        nvals thr (chunk_at recording_signal 288000) = 0
        /\ is_silence thr 409 (chunk_at recording_signal 288000) = false
        /\ 288000 ∈ signal_offsets recording_signal thr)
    /\ (409 <= Z.of_nat (length (filter
                 (fun v => 9227469 * peak_abs (range recording_signal silence_scan_i data_scan_i) + 1
                           <= 8388608 * Z.abs v) (chunk_at recording_signal 288000))) ->
        is_silence thr 409 (chunk_at recording_signal 288000) = true
        /\ 288000 ∉ signal_offsets recording_signal thr).
Proof.
  apply X14_chunk_against_peak.
  - vm_compute. reflexivity.
  - vm_compute. split; discriminate.
  - vm_compute. constructor.
Defined.

Lemma silence_threshold_min : silence_threshold INT32_MIN = None.
Proof. vm_compute. reflexivity. Qed.

Lemma peak_abs_INT32_MIN (l : list Z) :
  Forall in_int32 l -> INT32_MIN ∈ l -> peak_abs l = 2147483648.
Proof.
  intros Hl Hin. apply Z.le_antisymm.
  - clear Hin. induction Hl as [|v l Hv _ IH]; [done|].
    cbn [peak_abs foldr]. fold (peak_abs l).
    unfold in_int32, INT32_MIN, INT32_MAX in Hv. lia.
  - apply (peak_abs_upper l INT32_MIN Hin).
Qed.

(** ** Where the calibration is undefined *)

Module FloatOverflow.
Import FloatFacts.

Lemma log2_54 (x : Z) : 2 ^ 54 <= x < 2 ^ 55 -> Z.log2 x = 54.
Proof. intros Hx. apply Z.log2_unique; [lia|]. exact Hx. Qed.

(** Rounding a 55-bit significand: two bits are shifted out, and the
    result keeps at least 53 bits. *)
Lemma binary_round_aux_quarter (M x : positive) (E n : Z) :
  0 <= n ->
  Zpos M = Zpos x * 2 ^ n ->
  2 ^ 54 <= Zpos x < 2 ^ 55 ->
  -1074 <= E + n + 2 <= 970 ->
  exists r e, binary_round_aux 53 1024 false (Zpos M) E loc_Exact = S754_finite false r e
              /\ E + n + 2 <= e <= E + n + 3
              /\ 2 ^ 52 <= Zpos r.
Proof.
  intros Hn HM Hx HE.
  assert (Zdigits2 (Zpos M) = n + 55) as HdM.
  { rewrite Zdigits2_log2, HM, Z.log2_mul_pow2 by lia.
    rewrite (log2_54 (Zpos x)); lia. }
  assert (forall r, 2 ^ 52 <= Zpos r <= 2 ^ 53 ->
            exists r' e,
              (let '(mrs'', e'') := shr_fexp 53 1024 (Zpos r) (E + n + 2) loc_Exact in
               match shr_m mrs'' with
               | 0 => S754_zero false
               | Zpos m => if e'' <=? 1024 - 53 then S754_finite false m e''
                           else S754_infinity false
               | Zneg _ => S754_nan
               end) = S754_finite false r' e
              /\ E + n + 2 <= e <= E + n + 3 /\ 2 ^ 52 <= Zpos r') as Hfin.
  { intros r Hr. destruct (Z.eq_dec (Zpos r) (2 ^ 53)) as [Heq|Hne].
    - exists 4503599627370496%positive, (E + n + 3).
      split; [|split; [lia|done]].
      assert (r = 9007199254740992%positive) as -> by (change (2 ^ 53) with 9007199254740992 in Heq; lia).
      unfold shr_fexp.
      replace (fexp 53 1024 (Zdigits2 9007199254740992 + (E + n + 2)) - (E + n + 2)) with 1
        by (change (Zdigits2 9007199254740992) with 54; unfold fexp, emin; lia).
      cbn [shr_record_of_loc shr SpecFloat.iter_pos shr_1 shr_m].
      replace (E + n + 2 + 1) with (E + n + 3) by lia.
      destruct (Z.leb_spec (E + n + 3) (1024 - 53)); [done|lia].
    - exists r, (E + n + 2). split; [|split; [lia|lia]].
      unfold shr_fexp. rewrite Zdigits2_log2.
      rewrite (log2_52 (Zpos r)) by lia.
      replace (fexp 53 1024 (52 + 1 + (E + n + 2)) - (E + n + 2)) with 0
        by (unfold fexp, emin; lia).
      cbn [shr_record_of_loc shr shr_m].
      destruct (Z.leb_spec (E + n + 2) (1024 - 53)); [done|lia]. }
  assert (SpecFloat.iter_pos shr_1 (Z.to_pos (n + 2))
            {| shr_m := Zpos M; shr_r := false; shr_s := false |}
          = shr_1 (shr_1 {| shr_m := Zpos x; shr_r := false; shr_s := false |})) as Hiter.
  { rewrite iter_pos_nat.
    replace (Pos.to_nat (Z.to_pos (n + 2))) with (S (S (Z.to_nat n))) by lia.
    cbn [Nat.iter]. do 2 f_equal. rewrite HM, <- (iter_shr_exact (Z.to_nat n) x).
    by rewrite Z2Nat.id. }
  unfold binary_round_aux, shr_fexp at 1. rewrite HdM.
  replace (fexp 53 1024 (n + 55 + E) - E) with (n + 2) by (unfold fexp, emin; lia).
  cbn [shr_record_of_loc]. unfold shr.
  destruct (n + 2) as [|k|k] eqn:Hk; [lia| |lia].
  cbn [Z.to_pos] in Hiter. rewrite Hiter. clear Hiter. rewrite <- Hk.
  replace (E + (n + 2)) with (E + n + 2) by lia.
  clear HdM HM Hk.
  change (2 ^ 52) with 4503599627370496 in *.
  change (2 ^ 53) with 9007199254740992 in *.
  change (2 ^ 54) with 18014398509481984 in *.
  change (2 ^ 55) with 36028797018963968 in *.
  destruct x as [[q|q|]|[q|q|]|]; try lia;
    cbn [shr_1 shr_m shr_r shr_s loc_of_shr_record orb round_nearest_even].
  - apply (Hfin (q + 1)%positive). lia.
  - apply (Hfin q). lia.
  - destruct (Z.even (Zpos q)); [apply (Hfin q); lia|].
    change (Zpos q + 1) with (Zpos (q + 1)). apply (Hfin (q + 1)%positive). lia.
  - apply (Hfin q). lia.
Qed.

Lemma silence_threshold_overflows (m : Z) :
  1952257820 <= m <= INT32_MAX -> silence_threshold m = None.
Proof.
  unfold INT32_MAX. intros [Hlo Hhi]. destruct m as [|p|p]; [lia| |lia].
  unfold silence_threshold. rewrite threshold_factor_double.
  assert (Z.log2 (Zpos p) < 31) as Hlp
    by (apply Z.log2_lt_pow2; [lia|]; change (2 ^ 31) with 2147483648; lia).
  pose proof (Z.log2_nonneg (Zpos p)) as Hlp0.
  destruct (double_of_Z_pos p) as (M & -> & HM); [lia|].
  set (lp := Z.log2 (Zpos p)) in *.
  unfold Float.mul, SFmul. cbn [xorb].
  destruct (binary_round_aux_quarter (M * 4953959697481728) (p * 9227469)
              (lp - 52 + -52) (52 - lp + 29)) as (r & e & -> & He & Hr).
  - lia.
  - rewrite !Pos2Z.inj_mul, HM, threshold_factor_value.
    rewrite Z.pow_add_r by lia. ring.
  - rewrite Pos2Z.inj_mul.
    change (2 ^ 54) with 18014398509481984. change (2 ^ 55) with 36028797018963968. lia.
  - lia.
  - unfold Float.to_int32, Float.trunc. cbn [cond_Zopp].
    change (2 ^ 52) with 4503599627370496 in Hr.
    assert (e = -21 \/ e = -20) as [-> | ->] by lia.
    + cbn [Z.leb Z.compare Z.opp]. rewrite Z.quot_div_nonneg by lia.
      change (- (-21)) with 21. change (2 ^ 21) with 2097152.
      unfold INT32_MIN, INT32_MAX.
      destruct (Z.leb_spec (Zpos r / 2097152) 2147483647) as [Hle|_];
        [Z.to_euclidean_division_equations; lia|].
      by rewrite andb_false_r.
    + cbn [Z.leb Z.compare Z.opp]. rewrite Z.quot_div_nonneg by lia.
      change (- (-20)) with 20. change (2 ^ 20) with 1048576.
      unfold INT32_MIN, INT32_MAX.
      destruct (Z.leb_spec (Zpos r / 1048576) 2147483647) as [Hle|_];
        [Z.to_euclidean_division_equations; lia|].
      by rewrite andb_false_r.
Qed.

End FloatOverflow.

Lemma peak_abs_int32 (l : list Z) : Forall in_int32 l -> peak_abs l <= 2147483648.
Proof.
  induction 1 as [|v l Hv _ IH]; [done|].
  cbn [peak_abs foldr]. fold (peak_abs l).
  unfold in_int32, INT32_MIN, INT32_MAX in Hv. lia.
Qed.

Lemma calibrate_domain (raw : list Z) :
  data_scan_i < len raw -> Forall in_int32 raw ->
  calibrate raw = None <-> 1952257819 < peak_abs (range raw silence_scan_i data_scan_i).
Proof.
  intros Hlen Hraw.
  assert (Forall in_int32 (range raw silence_scan_i data_scan_i)) as Hwin
    by (unfold range; by apply Forall_take, Forall_drop).
  pose proof (peak_abs_int32 _ Hwin) as Hup.
  pose proof (peak_abs_nonneg (range raw silence_scan_i data_scan_i)) as Hp0.
  unfold calibrate. rewrite silence_max_peak by done.
  set (p := peak_abs (range raw silence_scan_i data_scan_i)) in *.
  destruct (Z.le_gt_cases p 1952257819) as [Hle|Hgt].
  - rewrite int32_wrap_id by (unfold in_int32, INT32_MIN, INT32_MAX; lia).
    destruct (threshold_of_peak p ltac:(lia)) as (thr & -> & _).
    split; [done|lia].
  - split; [done|]. intros _.
    destruct (Z.eq_dec p 2147483648) as [->|Hne].
    + apply silence_threshold_min.
    + rewrite int32_wrap_id by (unfold in_int32, INT32_MIN, INT32_MAX; lia).
      apply FloatOverflow.silence_threshold_overflows. unfold INT32_MAX. lia.
Qed.

(** X15: on a recording of 32-bit samples longer than the calibration
    window, the threshold conversion is out of the range of [int32_t], and
    the behaviour of the run undefined, exactly when the peak of the window
    exceeds 1952257819.  The sample [INT32_MIN] in the window is such a case:
    its absolute value does not fit [silence_max], which becomes
    [INT32_MIN]. *)
Theorem X15_calibration_domain {T : Type} `{base_output T} (out : T) (raw : list Z)
    (w : world) :
  data_scan_i < len raw ->
  Forall in_int32 raw ->
  (calibrate raw = None
   <-> 1952257819 < peak_abs (range raw silence_scan_i data_scan_i))
  /\ (process_raw_audio_file out raw w = Undefined
      <-> 1952257819 < peak_abs (range raw silence_scan_i data_scan_i))
  /\ (INT32_MIN ∈ range raw silence_scan_i data_scan_i ->
      silence_max raw silence_scan_i data_scan_i = Some INT32_MIN
      /\ process_raw_audio_file out raw w = Undefined).
Proof.
  intros Hlen Hraw. pose proof (calibrate_domain raw Hlen Hraw) as Hdom.
  assert (process_raw_audio_file out raw w = Undefined <-> calibrate raw = None) as Hproc.
  { rewrite process_cases. destruct (Z.leb_spec (len raw) data_scan_i); [lia|].
    destruct (calibrate raw); split; done. }
  split; [exact Hdom|]. split; [by rewrite Hproc|].
  intros Hin.
  assert (peak_abs (range raw silence_scan_i data_scan_i) = 2147483648) as Hpeak.
  { apply peak_abs_INT32_MIN; [|done]. unfold range. by apply Forall_take, Forall_drop. }
  split.
  - rewrite silence_max_peak by done. rewrite Hpeak. reflexivity.
  - apply Hproc, Hdom. lia.
Qed.

Lemma X15_calibration_domain_witness :
  process_raw_audio_file {| silence_srcpath := "output-silence.raw" |}
    (recording_peak 2000000000) world_keep_all = Undefined
  <-> 1952257819 < peak_abs (range (recording_peak 2000000000) silence_scan_i data_scan_i).
Proof.
  refine (proj1 (proj2 (X15_calibration_domain {| silence_srcpath := "output-silence.raw" |}
                          (recording_peak 2000000000) world_keep_all _ _))).
  - vm_compute. reflexivity.
  - apply (bool_decide_unpack _). vm_compute. exact I.
Defined.

(** ** The run over all recordings *)

Lemma for_each_app (body : string -> world -> progress) (l1 l2 : list string) (w : world) :
  for_each body (l1 ++ l2) w
  = match for_each body l1 w with
    | Continue w' => for_each body l2 w'
    | stop => stop
    end.
Proof.
  revert w. induction l1 as [|word l1 IH]; intros w; [done|].
  cbn [app for_each]. destruct (body word w); [done|done|apply IH].
Qed.

Lemma process_file_unusable {T : Type} `{base_output T} (fs : string -> file_view)
    (out : T) (w : world) :
  unusable (fs (srcpath out)) ->
  process_file fs out w = Fatal (failure_message (fs (srcpath out))) w.
Proof.
  unfold process_file, unusable.
  destruct (fs (srcpath out)) as [| | |bytes]; cbn [s32le_open failure_message];
    [reflexivity ..|].
  intros Hshort. rewrite process_cases.
  destruct (Z.leb_spec (len (s32le_raw bytes)) data_scan_i) as [_|Hlong]; [reflexivity|].
  rewrite s32le_raw_length in Hlong. unfold data_scan_i in Hlong.
  Z.to_euclidean_division_equations. lia.
Qed.

(** Processing a file that holds [recording_quiet]. *)
Lemma recording_quiet_open :
  s32le_open (mapped recording_quiet_bytes) = inr recording_quiet.
Proof.
  unfold s32le_open, recording_quiet_bytes.
  rewrite (s32le_raw_bytes recording_quiet); [reflexivity|].
  apply (bool_decide_unpack _). vm_compute. exact I.
Qed.

Lemma process_file_quiet {T : Type} `{base_output T} (fs : string -> file_view)
    (out : T) (w : world) :
  fs (srcpath out) = mapped recording_quiet_bytes ->
  process_file fs out w = process_raw_audio_file out recording_quiet w.
Proof. intros Hfs. unfold process_file. rewrite Hfs, recording_quiet_open. reflexivity. Qed.

(** X16: when [wordexp] succeeds and one of the silence recordings it
    finds cannot be opened, examined or mapped, or is too short, [main]
    aborts with the message of that failure in the world the earlier silence
    recordings left: their records stay, and the later silence recordings
    and all the directional recordings are never processed. *)
Theorem X16_bad_silence_file_aborts (e : env) (arg0 dir output_directory bad : string)
    (pre post : list string) (w w1 : world) :
  wordexp e (String.append dir "/output-silence*.raw") = (0, pre ++ bad :: post) ->
  for_each (silence_body e) pre w = Continue w1 ->
  unusable (fs_view e bad) ->
  main e [arg0; dir; output_directory] w = Abort (failure_message (fs_view e bad)) w1.
Proof.
  intros Hexp Hpre Hbad. unfold main. rewrite Hexp.
  change (0 <? 0) with false. cbv iota.
  rewrite for_each_app, Hpre. cbn [for_each]. unfold silence_body at 1.
  rewrite process_file_unusable by exact Hbad. reflexivity.
Qed.

Lemma X16_bad_silence_file_aborts_witness :
  main (sample_env ["rec/output-silence1.raw"; "rec/output-silence2.raw";
                    "rec/output-silence3.raw"]%string
                   ["rec/output-05.625deg-0elev-1.0m.raw"]%string
                   "rec/output-silence2.raw")
    ["prepare-data"; "rec"; "out"]%string world_keep_all
  = Abort "failed to open file"
      (advance 1 [silence_file {| silence_srcpath := "rec/output-silence1.raw" |}
                    recording_quiet 288000] world_keep_all).
Proof.
  refine (X16_bad_silence_file_aborts
            (sample_env ["rec/output-silence1.raw"; "rec/output-silence2.raw";
                         "rec/output-silence3.raw"]%string
                        ["rec/output-05.625deg-0elev-1.0m.raw"]%string
                        "rec/output-silence2.raw")
            "prepare-data" "rec" "out" "rec/output-silence2.raw"
            ["rec/output-silence1.raw"%string] ["rec/output-silence3.raw"%string]
            world_keep_all _ _ _ _).
  - reflexivity.
  - cbn [for_each]. unfold silence_body.
    rewrite process_file_quiet by reflexivity. vm_compute. reflexivity.
  - exact I.
Defined.

(** X17: when [wordexp] succeeds and the silence recordings are processed,
    a directional recording whose name [sscanf] does not split into three
    fields aborts [main] with that message, in the world the earlier
    recordings left and whatever the file holds.  One with a valid name
    whose directories are built, and whose file cannot be opened, examined
    or mapped, or is too short, aborts [main] in that world with the message
    of the failure.  One whose formatted angle, elevation or distance does
    not fit its 16 bytes leaves the behaviour undefined. *)
Theorem X17_bad_dataset_file_aborts (e : env) (arg0 dir output_directory bad : string)
    (silence pre post : list string) (w w1 w2 : world) :
  wordexp e (String.append dir "/output-silence*.raw") = (0, silence) ->
  wordexp e (String.append dir "/output-*deg-*elev-*m.raw") = (0, pre ++ bad :: post) ->
  for_each (silence_body e) silence w = Continue w1 ->
  for_each (dataset_body e) pre w1 = Continue w2 ->
  (sc_n (sscanf e bad) <> 3 ->
   main e [arg0; dir; output_directory] w = Abort "has invalid filename" w2)
  /\ (forall d, new_dataset_output e bad = ctor_ok d ->
      unusable (fs_view e bad) ->
      main e [arg0; dir; output_directory] w = Abort (failure_message (fs_view e bad)) w2)
  /\ (sc_n (sscanf e bad) = 3 ->
      (exists mic_offs, (mic_offs < NCHANNELS)%nat
                        /\ angle_dir e (sscanf e bad) mic_offs = None) ->
      main e [arg0; dir; output_directory] w = Undef).
Proof.
  intros Hexp Hexp' Hsil Hpre. unfold main. rewrite Hexp.
  change (0 <? 0) with false. cbv iota. rewrite Hsil, Hexp'. cbv iota.
  rewrite for_each_app, Hpre. cbn [for_each]. unfold dataset_body at 1 3 5.
  split; [|split].
  - intros Hname. unfold new_dataset_output.
    destruct (Z.eqb_spec (sc_n (sscanf e bad)) 3); [done|reflexivity].
  - intros d Hctor Hbad.
    assert (dataset_srcpath d = bad) as Hsrc.
    { unfold new_dataset_output in Hctor.
      destruct (sc_n (sscanf e bad) =? 3); [|discriminate Hctor].
      destruct (mapM (angle_dir e (sscanf e bad)) (seq 0 NCHANNELS));
        [|discriminate Hctor].
      injection Hctor as <-. reflexivity. }
    rewrite Hctor, (process_file_unusable (fs_view e) d w2).
    + cbn [srcpath dataset_base_output]. rewrite Hsrc. reflexivity.
    + cbn [srcpath dataset_base_output]. rewrite Hsrc. exact Hbad.
  - intros Hname (mic_offs & Hlt & Hnone). unfold new_dataset_output.
    rewrite Hname. cbn [Z.eqb Pos.eqb].
    destruct (mapM (angle_dir e (sscanf e bad)) (seq 0 NCHANNELS)) as [dirs|] eqn:Hmap;
      [|reflexivity].
    apply mapM_Some_1 in Hmap.
    destruct (Forall2_lookup_l _ _ _ mic_offs mic_offs Hmap) as (y & _ & Hy);
      [by apply (lookup_seq_lt 0)|].
    rewrite Hnone in Hy. discriminate Hy.
Qed.

Lemma X17_bad_dataset_file_aborts_witness :
  main (sample_env ["rec/output-silence1.raw"%string]
                   ["rec/output-05.625deg-0elev-1.0m.raw"; "rec/output-xdeg-0elev-1.0m.raw";
                    "rec/output-1e9deg-0elev-1.0m.raw"]%string "")
    ["prepare-data"; "rec"; "out"]%string world_keep_all
  = Abort "has invalid filename"
      (advance 1 [silence_file {| silence_srcpath := "rec/output-silence1.raw" |}
                    recording_quiet 288000] world_keep_all)
  /\ main (sample_env ["rec/output-silence1.raw"%string]
                      ["rec/output-05.625deg-0elev-1.0m.raw";
                       "rec/output-1e9deg-0elev-1.0m.raw";
                       "rec/output-xdeg-0elev-1.0m.raw"]%string
                      "rec/output-1e9deg-0elev-1.0m.raw")
       ["prepare-data"; "rec"; "out"]%string world_keep_all
     = Abort "failed to open file"
         (advance 1 [silence_file {| silence_srcpath := "rec/output-silence1.raw" |}
                       recording_quiet 288000] world_keep_all).
Proof.
  assert (forall e : env,
            fs_view e "rec/output-silence1.raw" = mapped recording_quiet_bytes ->
            for_each (silence_body e) ["rec/output-silence1.raw"%string] world_keep_all
            = Continue
                (advance 1 [silence_file {| silence_srcpath := "rec/output-silence1.raw" |}
                              recording_quiet 288000] world_keep_all)) as Hsilence.
  { intros e He. cbn [for_each]. unfold silence_body.
    rewrite process_file_quiet by exact He. vm_compute. reflexivity. }
  assert (forall e : env,
            sscanf e = sample_sscanf -> sprintf e = sample_sprintf ->
            fs_view e "rec/output-05.625deg-0elev-1.0m.raw" = mapped recording_quiet_bytes ->
            for_each (dataset_body e) ["rec/output-05.625deg-0elev-1.0m.raw"%string]
              (advance 1 [silence_file {| silence_srcpath := "rec/output-silence1.raw" |}
                            recording_quiet 288000] world_keep_all)
            = Continue
                (advance 1 [silence_file {| silence_srcpath := "rec/output-silence1.raw" |}
                              recording_quiet 288000] world_keep_all)) as Hdataset.
  { intros e Hscan Hprint He. cbn [for_each]. unfold dataset_body.
    assert (new_dataset_output e "rec/output-05.625deg-0elev-1.0m.raw"
            = ctor_ok {| dataset_srcpath := "rec/output-05.625deg-0elev-1.0m.raw";
                         angle_dirs := angle_dirs sample_dataset |}) as ->.
    { unfold new_dataset_output, angle_dir. rewrite Hscan, Hprint. vm_compute. reflexivity. }
    rewrite process_file_quiet by exact He. vm_compute. reflexivity. }
  split.
  - refine (proj1 (X17_bad_dataset_file_aborts _
              "prepare-data" "rec" "out" "rec/output-xdeg-0elev-1.0m.raw"
              ["rec/output-silence1.raw"%string]
              ["rec/output-05.625deg-0elev-1.0m.raw"%string]
              ["rec/output-1e9deg-0elev-1.0m.raw"%string]
              world_keep_all _ _ _ _ _ _) _).
    + reflexivity.
    + reflexivity.
    + apply Hsilence. reflexivity.
    + apply Hdataset; reflexivity.
    + vm_compute. discriminate.
  - refine (proj1 (proj2 (X17_bad_dataset_file_aborts _
              "prepare-data" "rec" "out" "rec/output-1e9deg-0elev-1.0m.raw"
              ["rec/output-silence1.raw"%string]
              ["rec/output-05.625deg-0elev-1.0m.raw"%string]
              ["rec/output-xdeg-0elev-1.0m.raw"%string]
              world_keep_all _ _ _ _ _ _))
              sample_dataset_1e9 _ _).
    + reflexivity.
    + reflexivity.
    + apply Hsilence. reflexivity.
    + apply Hdataset; reflexivity.
    + vm_compute. reflexivity.
    + exact I.
Defined.

(** X18: in terms of the input chunk, the variant of the rotation offset
    [r] holds at channel [(c + r) mod NCHANNELS] the sample of channel [c]
    minus the sample of channel [(NCHANNELS - r) mod NCHANNELS] of the same
    frame, as [int32_t]; that reference channel itself, which lands on
    channel 0, is kept as it is. *)
Theorem X18_variant_reference (arr : list Z) (r k c : nat) :
  (r < NCHANNELS)%nat -> (k < OUT_NSAMPLES)%nat -> (c < NCHANNELS)%nat ->
  ((c + r) mod NCHANNELS = 0 <-> c = (NCHANNELS - r) mod NCHANNELS)%nat
  /\ variant r arr !! (k * NCHANNELS + (c + r) mod NCHANNELS)%nat
     = Some (if decide (c = ((NCHANNELS - r) mod NCHANNELS)%nat)
             then arr !!! (k * NCHANNELS + c)%nat
             else int32_sub (arr !!! (k * NCHANNELS + c)%nat)
                    (arr !!! (k * NCHANNELS + (NCHANNELS - r) mod NCHANNELS)%nat)).
Proof.
  intros Hr Hk Hc.
  assert (rot_index (NCHANNELS - r) 0 = ((NCHANNELS - r) mod NCHANNELS)%nat) as Href
    by reflexivity.
  assert (rot_index r c = 0%nat <-> c = ((NCHANNELS - r) mod NCHANNELS)%nat) as Hiff.
  { rewrite <- Href. split.
    - intros H0. rewrite <- H0. symmetry. apply rot_index_cancel; [exact Hc|lia].
    - intros ->. apply rot_index_cancel; [apply NCHANNELS_pos|lia]. }
  split; [exact Hiff|].
  pose proof (variant_lookup r arr k c ltac:(lia) Hk Hc) as Hv.
  rewrite Href in Hv. unfold rot_index in Hv at 1. rewrite Hv. f_equal.
  destruct (decide (rot_index r c = 0%nat)) as [H0|H0],
    (decide (c = ((NCHANNELS - r) mod NCHANNELS)%nat)) as [H1|H1];
    try reflexivity; exfalso; tauto.
Qed.

Lemma X18_variant_reference_witness :
  variant 3 ramp_chunk !! (2 * NCHANNELS + (6 + 3) mod NCHANNELS)%nat
  = Some (if decide (6%nat = ((NCHANNELS - 3) mod NCHANNELS)%nat)
          then ramp_chunk !!! (2 * NCHANNELS + 6)%nat
          else int32_sub (ramp_chunk !!! (2 * NCHANNELS + 6)%nat)
                 (ramp_chunk !!! (2 * NCHANNELS + (NCHANNELS - 3) mod NCHANNELS)%nat)).
Proof.
  refine (proj2 (X18_variant_reference ramp_chunk 3 2 6 _ _ _)).
  - vm_compute. lia.
  - vm_compute. lia.
  - vm_compute. lia.
Defined.
